(** * bookstore_manger.py: the sales transaction engine

    A shallow embedding of [src/bookstore_manger.py]: the three SQLite
    tables as finite maps keyed by their primary keys, the connection as a
    pair of a committed and a working database, and the interactive
    operations [add_sale], [update_sale], [delete_sale], [show_sales] and
    the menu loop as statements over a world made of the console and the
    connection.

    Conventions.
    - Text typed at the console is a [string] holding one character per
      [ascii], for the characters below code point 256.  Text the program
      prints from its own literals is kept as the UTF-8 bytes of the source.
    - Python integers are [Z].  SQLite's INTEGER is 64-bit: handing it a
      larger Python integer raises [OverflowError] (module sqlite3).
    - A write statement or a commit may be refused by the store with an
      [OperationalError] or another [DatabaseError]: the world carries the
      store's answers to come ([faults]).  A refusal leaves the transaction
      open, as a busy database does.  So may the read of the connection that
      [show_sales] opens: SQLite answers it with "database is locked" while
      the main connection holds the lock of a transaction that it could not
      commit.  Reads on the main connection and rollbacks are taken to
      succeed. *)

From Stdlib Require Import ZArith String Ascii DecimalString.
From stdpp Require Import gmap strings list sorting.

#[local] Open Scope Z_scope.

(** ** The Python builtins the program calls *)

Module Py.

Definition ord (c : ascii) : Z := Z.of_N (N_of_ascii c).

(** [str.isspace] of one character (code points below 256). *)
Definition isspace (c : ascii) : bool :=
  let n := ord c in
  ((9 <=? n) && (n <=? 13)) || ((28 <=? n) && (n <=? 32))
  || (n =? 133) || (n =? 160).

(** The blanks [int] skips around a literal: not the separators 28..31. *)
Definition int_space (c : ascii) : bool :=
  let n := ord c in
  ((9 <=? n) && (n <=? 13)) || (n =? 32) || (n =? 133) || (n =? 160).

Fixpoint lstrip_by (sp : ascii → bool) (l : list ascii) : list ascii :=
  match l with
  | c :: l' => if sp c then lstrip_by sp l' else l
  | [] => []
  end.

Definition strip_by (sp : ascii → bool) (l : list ascii) : list ascii :=
  reverse (lstrip_by sp (reverse (lstrip_by sp l))).

(** [s.strip()] *)
Definition strip (s : string) : string :=
  string_of_list_ascii (strip_by isspace (list_ascii_of_string s)).

(** [len(s)] *)
Definition len (s : string) : Z := Z.of_nat (String.length s).

(** [s.count(c)] for a one-character [c] *)
Fixpoint count (s : string) (c : ascii) : Z :=
  match s with
  | EmptyString => 0
  | String x s' => (if Ascii.eqb x c then 1 else 0) + count s' c
  end.

Definition digit (c : ascii) : option Z :=
  let n := ord c in
  if (48 <=? n) && (n <=? 57) then Some (n - 48) else None.

(** Digits with single underscores between them: the value read and the
    number of digits. [prev] tells that the previous character was a digit. *)
Fixpoint int_body (acc : Z) (n : nat) (prev : bool) (l : list ascii)
  : option (Z * nat) :=
  match l with
  | [] => if prev then Some (acc, n) else None
  | c :: l' =>
      match digit c with
      | Some d => int_body (10 * acc + d) (S n) true l'
      | None =>
          if Ascii.eqb c "_" && prev then int_body acc n false l' else None
      end
  end.

(** [sys.get_int_max_str_digits()] *)
Definition max_str_digits : nat := 4300.

Definition int_signed (l : list ascii) : option Z :=
  let '(sign, body) :=
    match l with
    | c :: l' =>
        if Ascii.eqb c "+" then (1, l')
        else if Ascii.eqb c "-" then (-1, l')
        else (1, l)
    | [] => (1, l)
    end in
  match int_body 0 0 false body with
  | Some (v, n) => if (n <=? max_str_digits)%nat then Some (sign * v) else None
  | None => None
  end.

(** [int(s)]: [None] stands for [ValueError]. *)
Definition int (s : string) : option Z :=
  int_signed (strip_by int_space (list_ascii_of_string s)).

(** [str(n)] *)
Definition str (n : Z) : string := NilZero.string_of_int (Z.to_int n).

(** Groups of three from the right, for the format [{n:,}]. *)
Fixpoint group3 (fuel : nat) (rev_digits : list ascii) : list ascii :=
  match fuel, rev_digits with
  | S fuel', a :: b :: c :: (_ :: _) as rest =>
      a :: b :: c :: ","%char :: group3 fuel' rest
  | _, _ => rev_digits
  end.

(** [f'{n:,}'] *)
Definition format_thousands (n : Z) : string :=
  let digits := list_ascii_of_string (str (Z.abs n)) in
  let grouped := reverse (group3 (length digits) (reverse digits)) in
  let sign : string := if n <? 0 then "-"%string else ""%string in
  sign +:+ string_of_list_ascii grouped.

(** What SQLite's INTEGER holds. *)
Definition min_int64 : Z := - 2 ^ 63.
Definition max_int64 : Z := 2 ^ 63 - 1.
Definition fits_int64 (n : Z) : bool := (min_int64 <=? n) && (n <=? max_int64).

End Py.

(** ** The tables

    [member], [book] and [sale] with their columns; the primary keys
    ([mid], [bid], [sid]) are the keys of the maps. *)

Record Member := mkMember {
  mname : string;
  mphone : string;
  memail : option string
}.

Record Book := mkBook {
  btitle : string;
  bprice : Z;
  bstock : Z
}.

Record Sale := mkSale {
  sdate : string;
  mid : string;
  bid : string;
  sqty : Z;
  sdiscount : Z;
  stotal : Z
}.

(** [sale_seq] is the row SQLite keeps for an AUTOINCREMENT key: the largest
    [sid] ever given out. *)
Record DB := mkDB {
  member : gmap string Member;
  book : gmap string Book;
  sale : gmap Z Sale;
  sale_seq : Z
}.

(** A connection sees its own uncommitted writes ([working]); another
    connection, as the one [show_sales] opens, sees [committed]. *)
Record Connection := mkConnection {
  committed : DB;
  working : DB
}.

(** ** Exceptions, console and world *)

Inductive sqlite3_Error :=
| OperationalError (msg : string)
| DatabaseError (msg : string).   (* any other subclass of DatabaseError *)

Inductive exn :=
| ValueError
| EOFError
| OverflowError
| TypeError
| IndexError
| Sqlite (err : sqlite3_Error).

(** [str(e)].  The text of a [ValueError] of [int] ends with the literal
    that was refused; the program never prints it. *)
Definition exn_str (e : exn) : string :=
  match e with
  | ValueError => "invalid literal for int() with base 10"
  | EOFError => "EOF when reading a line"
  | OverflowError => "Python int too large to convert to SQLite INTEGER"
  | TypeError => "'NoneType' object is not subscriptable"
  | IndexError => "list index out of range"
  | Sqlite (OperationalError msg) => msg
  | Sqlite (DatabaseError msg) => msg
  end.

(** A row of the selection list: [sid], [mname], [sdate]. *)
Abbreviation list_row := (Z * string * string)%type.

(** A row of the report: [sid], [sdate], [mname], [btitle], [bprice],
    [sqty], [sdiscount], [stotal]. *)
Record report_row := mkReportRow {
  r_sid : Z; r_sdate : string; r_mname : string; r_btitle : string;
  r_bprice : Z; r_sqty : Z; r_sdiscount : Z; r_stotal : Z
}.

(** What reaches the terminal. *)
Inductive Output :=
| Prompt (text : string)                         (* written by [input] *)
| Line (text : string)                           (* one [print] of a message *)
| SalesList (header : bool) (rows : list list_row)
| SalesReport (rows : list report_row)
| Menu.

Record World := mkWorld {
  stdin : list string;                   (* the lines still to be typed *)
  stdout : list Output;
  conn : Connection;
  faults : list (option sqlite3_Error)   (* the store's answers to come *)
}.

Definition set_stdin (l : list string) (w : World) : World :=
  mkWorld l (stdout w) (conn w) (faults w).
Definition set_stdout (o : list Output) (w : World) : World :=
  mkWorld (stdin w) o (conn w) (faults w).
Definition set_conn (c : Connection) (w : World) : World :=
  mkWorld (stdin w) (stdout w) c (faults w).
Definition set_faults (f : list (option sqlite3_Error)) (w : World) : World :=
  mkWorld (stdin w) (stdout w) (conn w) f.

(** ** Statements

    A statement of a function body either goes on with a value, leaves the
    function ([return]) or raises. *)

Inductive outcome (R A : Type) :=
| Next (a : A)
| Return (r : R)
| Raise (e : exn).
Arguments Next {R A} a.
Arguments Return {R A} r.
Arguments Raise {R A} e.

Definition Stmt (R A : Type) : Type := World → outcome R A * World.

Definition pure {R A} (a : A) : Stmt R A := λ w, (Next a, w).
Definition return_ {R A} (r : R) : Stmt R A := λ w, (Return r, w).
Definition raise {R A} (e : exn) : Stmt R A := λ w, (Raise e, w).

Definition bind {R A B} (m : Stmt R A) (k : A → Stmt R B) : Stmt R B :=
  λ w, match m w with
       | (Next a, w') => k a w'
       | (Return r, w') => (Return r, w')
       | (Raise e, w') => (Raise e, w')
       end.

#[global] Instance Stmt_ret {R} : MRet (Stmt R) := λ A, pure.
#[global] Instance Stmt_bind {R} : MBind (Stmt R) := λ A B k m, bind m k.

(** [if c: body] *)
Definition when {R} (c : bool) (body : Stmt R unit) : Stmt R unit :=
  λ w, if c then body w else (Next tt, w).

(** [try: body / except <classes>: handler]; [handler e] is [None] when no
    clause takes [e]. *)
Definition try_except {R A} (body : Stmt R A) (handler : exn → option (Stmt R A))
  : Stmt R A :=
  λ w, match body w with
       | (Raise e, w') =>
           match handler e with
           | Some h => h w'
           | None => (Raise e, w')
           end
       | r => r
       end.

Definition except_ValueError {R A} (h : Stmt R A) (e : exn) : option (Stmt R A) :=
  match e with ValueError => Some h | _ => None end.
Definition except_sqlite3_Error {R A} (h : Stmt R A) (e : exn) : option (Stmt R A) :=
  match e with Sqlite _ => Some h | _ => None end.
Definition except_Exception {R A} (h : exn → Stmt R A) (e : exn) : option (Stmt R A) :=
  Some (h e).

(** A function of the program, seen from outside: it gives a value or
    lets an exception out. *)
Inductive result (A : Type) :=
| Ok (a : A)
| Err (e : exn).
Arguments Ok {A} a.
Arguments Err {A} e.

Definition Fn (A : Type) : Type := World → result A * World.

(** [def f(): body]: a [return] ends the body with its value; a body that
    runs to its end gives its last value. *)
Definition def {A} (body : Stmt A A) : Fn A :=
  λ w, match body w with
       | (Next a, w') => (Ok a, w')
       | (Return a, w') => (Ok a, w')
       | (Raise e, w') => (Err e, w')
       end.

(** [f()] as a statement of the caller. *)
Definition call {R A} (f : Fn A) : Stmt R A :=
  λ w, match f w with
       | (Ok a, w') => (Next a, w')
       | (Err e, w') => (Raise e, w')
       end.

(** *** Console *)

Definition print {R} (o : Output) : Stmt R unit :=
  λ w, (Next tt, set_stdout (stdout w ++ [o]) w).

Definition input {R} (prompt : string) : Stmt R string :=
  λ w, let w1 := set_stdout (stdout w ++ [Prompt prompt]) w in
       match stdin w with
       | line :: rest => (Next line, set_stdin rest w1)
       | [] => (Raise EOFError, w1)
       end.

(** [int(s)] as a statement *)
Definition int {R} (s : string) : Stmt R Z :=
  λ w, match Py.int s with
       | Some n => (Next n, w)
       | None => (Raise ValueError, w)
       end.

(** *** The store *)

(** The next answer of the store: to a write, to a commit, or to the read
    of a connection of its own. *)
Definition store_step {R} : Stmt R unit :=
  λ w, match faults w with
       | Some err :: rest => (Raise (Sqlite err), set_faults rest w)
       | None :: rest => (Next tt, set_faults rest w)
       | [] => (Next tt, w)
       end.

(** Binding the integer parameters of a statement, in order: the integers
    typed at the console or computed from them.  A key read from the store
    is a 64-bit integer already and is left out of [params]. *)
Fixpoint bind_ints {R} (params : list Z) : Stmt R unit :=
  λ w, match params with
       | [] => (Next tt, w)
       | n :: rest =>
           if Py.fits_int64 n then bind_ints rest w else (Raise OverflowError, w)
       end.

Definition get_working {R} : Stmt R DB := λ w, (Next (working (conn w)), w).
Definition get_committed {R} : Stmt R DB := λ w, (Next (committed (conn w)), w).

(** [cursor.execute] of a SELECT with the integer parameters [params]. *)
Definition query {R A} (params : list Z) (select : DB → A) : Stmt R A :=
  bind_ints params ;;
  db ← get_working;
  mret (select db).

(** The outcome of a statement in the store: the new working database, or
    the error SQLite answers with. *)
Definition run_sql {R} (r : sqlite3_Error + DB) : Stmt R unit :=
  λ w, match r with
       | inr db' => (Next tt, set_conn (mkConnection (committed (conn w)) db') w)
       | inl err => (Raise (Sqlite err), w)
       end.

(** [cursor.execute] of an INSERT, UPDATE or DELETE: the statement runs on
    the working database, inside the transaction it opens if none is open. *)
Definition execute {R} (params : list Z) (stmt : DB → sqlite3_Error + DB)
  : Stmt R unit :=
  bind_ints params ;;
  store_step ;;
  db ← get_working;
  run_sql (stmt db).

(** The working database becomes the committed one. *)
Definition make_durable {R} : Stmt R unit :=
  λ w, (Next tt, set_conn (mkConnection (working (conn w)) (working (conn w))) w).

(** [conn.commit()] *)
Definition commit {R} : Stmt R unit :=
  store_step ;;
  make_durable.

(** [conn.rollback()] *)
Definition rollback {R} : Stmt R unit :=
  λ w, (Next tt, set_conn (mkConnection (committed (conn w)) (committed (conn w))) w).

(** [sales[index]] for an index that is not negative *)
Definition subscript {R A} (l : list A) (index : Z) : Stmt R A :=
  λ w, match l !! Z.to_nat index with
       | Some x => (Next x, w)
       | None => (Raise IndexError, w)
       end.

(** [row[...]] of a [fetchone()] result, which is [None] when no row matched *)
Definition fetched {R A} (row : option A) : Stmt R A :=
  λ w, match row with
       | Some x => (Next x, w)
       | None => (Raise TypeError, w)
       end.

(** ** The SQL statements of the program *)

(** The largest [sid] in use. *)
Definition max_sid (db : DB) : Z :=
  map_fold (λ sid _ acc, Z.max sid acc) 0 (sale db).

(** The key an AUTOINCREMENT column gives to a new row. *)
Definition next_sid (db : DB) : Z := Z.max (sale_seq db) (max_sid db) + 1.

(** [INSERT INTO sale (sdate, mid, bid, sqty, sdiscount, stotal) VALUES (...)];
    SQLite refuses the insert once the largest key has been used. *)
Definition insert_sale (row : Sale) (db : DB) : sqlite3_Error + DB :=
  let sid := next_sid db in
  if Py.fits_int64 sid
  then inr (mkDB (member db) (book db) (<[sid := row]> (sale db)) sid)
  else inl (OperationalError "database or disk is full").

(** [UPDATE book SET bstock = bstock - ? WHERE bid = ?] *)
Definition update_book_stock (qty : Z) (b : string) (db : DB) : sqlite3_Error + DB :=
  inr (mkDB (member db)
            (alter (λ r, mkBook (btitle r) (bprice r) (bstock r - qty)) b (book db))
            (sale db) (sale_seq db)).

(** [UPDATE sale SET sdiscount = ?, stotal = ? WHERE sid = ?] *)
Definition update_sale_row (discount total sid : Z) (db : DB) : sqlite3_Error + DB :=
  inr (mkDB (member db) (book db)
            (alter (λ r, mkSale (sdate r) (mid r) (bid r) (sqty r) discount total)
                   sid (sale db))
            (sale_seq db)).

(** [DELETE FROM sale WHERE sid = ?] *)
Definition delete_sale_row (sid : Z) (db : DB) : sqlite3_Error + DB :=
  inr (mkDB (member db) (book db) (delete sid (sale db)) (sale_seq db)).

(** The order of [ORDER BY s.sid]. *)
Definition sid_le (x y : Z * Sale) : Prop := x.1 ≤ y.1.
#[global] Instance sid_le_dec : RelDecision sid_le := λ x y, decide (x.1 ≤ y.1).

(** The rows of [sale], [ORDER BY s.sid]. *)
Definition sales_by_sid (db : DB) : list (Z * Sale) :=
  merge_sort sid_le (map_to_list (sale db)).

(** [SELECT s.sid, m.mname, s.sdate FROM sale s JOIN member m ON s.mid = m.mid
    ORDER BY s.sid] *)
Definition select_sales_list (db : DB) : list list_row :=
  omap (λ '(sid, s), m ← member db !! mid s; Some (sid, mname m, sdate s))
       (sales_by_sid db).

(** [SELECT s.sid, s.sdate, m.mname, b.btitle, b.bprice, s.sqty, s.sdiscount,
    s.stotal FROM sale s JOIN member m ON ... JOIN book b ON ... ORDER BY s.sid] *)
Definition select_sales_report (db : DB) : list report_row :=
  omap (λ '(sid, s),
          m ← member db !! mid s;
          b ← book db !! bid s;
          Some (mkReportRow sid (sdate s) (mname m) (btitle b) (bprice b)
                            (sqty s) (sdiscount s) (stotal s)))
       (sales_by_sid db).

(** ** The messages *)

(** The prompts of [input]. *)
Definition ask_date : string := "請輸入銷售日期 (YYYY-MM-DD)：".
Definition ask_member : string := "請輸入會員編號：".
Definition ask_book : string := "請輸入書籍編號：".
Definition ask_quantity : string := "請輸入購買數量：".
Definition ask_discount : string := "請輸入折扣金額：".
Definition ask_update_choice : string := "請選擇要更新的銷售編號 (輸入數字或按 Enter 取消): ".
Definition ask_new_discount : string := "請輸入新的折扣金額：".
Definition ask_delete_choice : string := "請選擇要刪除的銷售編號 (輸入數字或按 Enter 取消): ".
Definition ask_menu_choice : string := "請選擇操作項目(Enter 離開)：".


Definition msg_date_format : string := "=> 錯誤：日期格式應為 YYYY-MM-DD".
Definition msg_qty_not_positive : string := "=> 錯誤：數量必須為正整數".
Definition msg_qty_not_int : string := "=> 錯誤：數量必須為整數".
Definition msg_discount_negative : string := "=> 錯誤：折扣金額不得為負".
Definition msg_discount_not_int : string := "=> 錯誤：折扣金額必須為整數".
Definition msg_no_member : string := "=> 錯誤：會員編號不存在".
Definition msg_no_book : string := "=> 錯誤：書籍編號不存在".
Definition msg_stock (stock : Z) : string :=
  "=> 錯誤：庫存不足 (現有庫存: " +:+ Py.str stock +:+ ")".
Definition msg_added (total : Z) : string :=
  "=> 銷售記錄已新增！(銷售總額: " +:+ Py.format_thousands total +:+ ")".
Definition msg_rolled_back : string := "=> 錯誤：新增銷售記錄失敗，交易已回復".
Definition msg_system_error (e : exn) : string := "=> 系統錯誤：" +:+ exn_str e.

Definition msg_nothing_to_update : string := "=> 沒有可更新的銷售記錄".
Definition msg_invalid_option : string := "=> 錯誤：請輸入有效的選項".
Definition msg_invalid_number : string := "=> 錯誤：請輸入有效的數字".
Definition msg_updated (sid total : Z) : string :=
  "=> 銷售編號 " +:+ Py.str sid +:+ " 已更新！(銷售總額: "
  +:+ Py.format_thousands total +:+ ")".
Definition msg_nothing_to_delete : string := "=> 沒有可刪除的銷售記錄".
Definition msg_deleted (sid : Z) : string :=
  "=> 銷售編號 " +:+ Py.str sid +:+ " 已刪除".

Definition msg_bye : string := "程式結束！".
Definition msg_menu_invalid : string := "=> 請輸入有效的選項（1-5）".
Definition msg_not_integer : string := "=> 錯誤：輸入格式錯誤（非整數）".
Definition msg_operational (msg : string) : string :=
  "=> 錯誤：資料庫操作錯誤 - " +:+ msg.
Definition msg_database (msg : string) : string :=
  "=> 錯誤：資料庫錯誤 - " +:+ msg.

(** ** The operations *)

(** [add_sale(conn)] *)
Definition add_sale_body : Stmt (bool * string) (bool * string) :=
  try_except
    (sdate ← input ask_date;
     when (negb (Py.len sdate =? 10) || negb (Py.count sdate "-" =? 2))
       (return_ (false, msg_date_format)) ;;
     mid ← input ask_member;
     bid ← input ask_book;
     sqty ← try_except
       (text ← input ask_quantity;
        sqty ← int text;
        when (sqty <=? 0) (return_ (false, msg_qty_not_positive)) ;;
        mret sqty)
       (except_ValueError (return_ (false, msg_qty_not_int)));
     sdiscount ← try_except
       (text ← input ask_discount;
        sdiscount ← int text;
        when (sdiscount <? 0) (return_ (false, msg_discount_negative)) ;;
        mret sdiscount)
       (except_ValueError (return_ (false, msg_discount_not_int)));
     m ← query [] (λ db, member db !! mid);
     when (bool_decide (m = None)) (return_ (false, msg_no_member)) ;;
     row ← query [] (λ db, book db !! bid);
     when (bool_decide (row = None)) (return_ (false, msg_no_book)) ;;
     row ← fetched row;
     let bprice := bprice row in
     let bstock := bstock row in
     when (bstock <? sqty) (return_ (false, msg_stock bstock)) ;;
     let stotal := bprice * sqty - sdiscount in
     try_except
       (execute [sqty; sdiscount; stotal]
                (insert_sale (mkSale sdate mid bid sqty sdiscount stotal)) ;;
        execute [sqty] (update_book_stock sqty bid) ;;
        commit ;;
        return_ (true, msg_added stotal))
       (except_sqlite3_Error
          (rollback ;;
           return_ (false, msg_rolled_back))))
    (except_Exception (λ e, return_ (false, msg_system_error e))).

Definition add_sale : Fn (bool * string) := def add_sale_body.

(** [update_sale(conn)] *)
Definition update_sale_body : Stmt unit unit :=
  sales ← query [] select_sales_list;
  when (bool_decide (sales = []))
    (print (Line msg_nothing_to_update) ;;
     return_ tt) ;;
  print (SalesList true sales) ;;
  choice ← input ask_update_choice;
  when (String.eqb (Py.strip choice) "") (return_ tt) ;;
  index ← try_except
    (n ← int choice;
     let index := n - 1 in
     when (negb ((0 <=? index) && (index <? Z.of_nat (length sales))))
       (print (Line msg_invalid_option) ;;
        return_ tt) ;;
     mret index)
    (except_ValueError
       (print (Line msg_invalid_number) ;;
        return_ tt));
  '(sid, _, _) ← subscript sales index;
  sdiscount ← try_except
    (text ← input ask_new_discount;
     sdiscount ← int text;
     when (sdiscount <? 0)
       (print (Line msg_discount_negative) ;;
        return_ tt) ;;
     mret sdiscount)
    (except_ValueError
       (print (Line msg_discount_not_int) ;;
        return_ tt));
  row ← query [] (λ db, sale db !! sid);
  row ← fetched row;
  let bid := bid row in
  let sqty := sqty row in
  b ← query [] (λ db, book db !! bid);
  b ← fetched b;
  let bprice := bprice b in
  let stotal := bprice * sqty - sdiscount in
  execute [sdiscount; stotal] (update_sale_row sdiscount stotal sid) ;;
  commit ;;
  print (Line (msg_updated sid stotal)).

Definition update_sale : Fn unit := def update_sale_body.

(** [delete_sale(conn)]; the print of the list's header stands after the
    [return] of the empty case in the source and is never run. *)
Definition delete_sale_body : Stmt unit unit :=
  sales ← query [] select_sales_list;
  when (bool_decide (sales = []))
    (print (Line msg_nothing_to_delete) ;;
     return_ tt) ;;
  print (SalesList false sales) ;;
  choice ← input ask_delete_choice;
  when (String.eqb (Py.strip choice) "") (return_ tt) ;;
  index ← try_except
    (n ← int choice;
     let index := n - 1 in
     when (negb ((0 <=? index) && (index <? Z.of_nat (length sales))))
       (print (Line msg_invalid_number) ;;
        return_ tt) ;;
     mret index)
    (except_ValueError
       (print (Line msg_invalid_number) ;;
        return_ tt));
  '(sid, _, _) ← subscript sales index;
  execute [] (delete_sale_row sid) ;;
  commit ;;
  print (Line (msg_deleted sid)).

Definition delete_sale : Fn unit := def delete_sale_body.

(** [show_sales()]: a connection of its own, which reads what is committed
    when the store lets it read; nothing is printed before the rows are
    fetched. *)
Definition show_sales_body : Stmt unit unit :=
  store_step ;;
  db ← get_committed;
  print (SalesReport (select_sales_report db)).

Definition show_sales : Fn unit := def show_sales_body.

(** ** Start-up and the menu loop *)

(** [INSERT OR IGNORE INTO t VALUES (key, ...)] *)
Definition insert_or_ignore {A} (key : string) (row : A) (t : gmap string A)
  : gmap string A :=
  match t !! key with
  | Some _ => t
  | None => <[key := row]> t
  end.

(** [INSERT INTO sale (...) SELECT ... WHERE NOT EXISTS
    (SELECT 1 FROM sale WHERE sid = n)] *)
Definition insert_sale_unless (n : Z) (row : Sale) (db : DB) : sqlite3_Error + DB :=
  match sale db !! n with
  | Some _ => inr db
  | None => insert_sale row db
  end.

(** [INSERT OR IGNORE INTO member VALUES (key, ...)] *)
Definition seed_member (key : string) (row : Member) (db : DB) : sqlite3_Error + DB :=
  inr (mkDB (insert_or_ignore key row (member db)) (book db) (sale db) (sale_seq db)).

(** [INSERT OR IGNORE INTO book VALUES (key, ...)] *)
Definition seed_book (key : string) (row : Book) (db : DB) : sqlite3_Error + DB :=
  inr (mkDB (member db) (insert_or_ignore key row (book db)) (sale db) (sale_seq db)).

(** [cursor.executescript]: the statements in order, each committed as it
    is done, up to the first that fails. *)
Fixpoint executescript (script : list (DB → sqlite3_Error + DB)) (db : DB)
  : option sqlite3_Error * DB :=
  match script with
  | [] => (None, db)
  | stmt :: rest =>
      match stmt db with
      | inr db' => executescript rest db'
      | inl err => (Some err, db)
      end
  end.

(** The script of [initialize_db]; the tables are there from the start in
    this model, so the three CREATE TABLE IF NOT EXISTS have nothing to do. *)
Definition seed_script : list (DB → sqlite3_Error + DB) :=
  [ seed_member "M001" (mkMember "Alice" "0912-345678" (Some "alice@example.com"));
    seed_member "M002" (mkMember "Bob" "0923-456789" (Some "bob@example.com"));
    seed_member "M003" (mkMember "Cathy" "0934-567890" (Some "cathy@example.com"));
    seed_book "B001" (mkBook "Python Programming" 600 50);
    seed_book "B002" (mkBook "Data Science Basics" 800 30);
    seed_book "B003" (mkBook "Machine Learning Guide" 1200 20);
    insert_sale_unless 1 (mkSale "2024-01-15" "M001" "B001" 2 100 1100);
    insert_sale_unless 2 (mkSale "2024-01-16" "M002" "B002" 1 50 750);
    insert_sale_unless 3 (mkSale "2024-01-17" "M001" "B003" 3 200 3400);
    insert_sale_unless 4 (mkSale "2024-01-18" "M003" "B001" 1 0 600) ].

(** [initialize_db(conn)] *)
Definition initialize_db (db : DB) : option sqlite3_Error * DB :=
  executescript seed_script db.

(** One turn of the [while True] loop: [true] stands for [break]. *)
Definition menu_turn_body : Stmt bool bool :=
  try_except
    (print Menu ;;
     choice ← input ask_menu_choice;
     if String.eqb choice "1" then
       '(success, message) ← call add_sale;
       print (Line message) ;;
       mret false
     else if String.eqb choice "2" then
       call show_sales ;;
       mret false
     else if String.eqb choice "3" then
       call update_sale ;;
       mret false
     else if String.eqb choice "4" then
       call delete_sale ;;
       mret false
     else if String.eqb choice "5" || String.eqb choice "" then
       print (Line msg_bye) ;;
       mret true
     else
       print (Line msg_menu_invalid) ;;
       mret false)
    (λ e, match e with
          | ValueError =>
              Some (print (Line msg_not_integer) ;; mret false)
          | Sqlite (OperationalError oe) =>
              Some (print (Line (msg_operational oe)) ;; mret false)
          | Sqlite (DatabaseError de) =>
              Some (print (Line (msg_database de)) ;; mret false)
          | _ => None
          end).

Definition menu_turn : Fn bool := def menu_turn_body.

(** How the process ends. *)
Inductive Exit :=
| ExitNormally                (* the loop was left by [break] *)
| Traceback (e : exn).        (* an exception nobody caught *)

(** The loop, for at most [fuel] turns; [None] when the turns run out. *)
Fixpoint main_loop (fuel : nat) (w : World) : option (Exit * World) :=
  match fuel with
  | O => None
  | S fuel' =>
      match menu_turn w with
      | (Ok true, w') => Some (ExitNormally, w')
      | (Ok false, w') => main_loop fuel' w'
      | (Err e, w') => Some (Traceback e, w')
      end
  end.

(** The program on the database file [disk], the lines [lines] typed at the
    console and the store's answers [answers]. *)
Definition main (disk : DB) (lines : list string)
    (answers : list (option sqlite3_Error)) : option (Exit * World) :=
  match initialize_db disk with
  | (Some err, db) =>
      Some (Traceback (Sqlite err), mkWorld lines [] (mkConnection db db) answers)
  | (None, db) =>
      main_loop (S (length lines)) (mkWorld lines [] (mkConnection db db) answers)
  end.

(** The database of a first run. *)
Definition empty_db : DB := mkDB ∅ ∅ ∅ 0.

(** The database the first run starts from: the seed rows of [initialize_db]. *)
Definition seed_db : DB := (initialize_db empty_db).2.

(** A session on the seed database with [lines] to be typed and a store
    that accepts every write. *)
Definition session (lines : list string) : World :=
  mkWorld lines [] (mkConnection seed_db seed_db) [].

(** The seed database after the price of B001 went from 600 to 700. *)
Definition repriced_db : DB :=
  mkDB (member seed_db)
       (<["B001" := mkBook "Python Programming" 700 50]> (book seed_db))
       (sale seed_db) (sale_seq seed_db).

(** ** Vocabulary of the properties *)

(** An [add_sale] that ends with the failure [msg] and leaves the
    connection as it was. *)
Definition fails_with (msg : string) (c : Connection)
    (res : result (bool * string) * World) : Prop :=
  res.1 = Ok (false, msg) ∧ conn res.2 = c.

(** The messages of the validation failures of [add_sale], for a book whose
    stock is [stock]. *)
Definition validation_messages (stock : Z) : list string :=
  [msg_date_format; msg_qty_not_int; msg_qty_not_positive;
   msg_discount_not_int; msg_discount_negative; msg_no_member;
   msg_no_book; msg_stock stock].

(** The database after the two writes of a create: the row [row] under a
    new key and the stock of its book less its quantity. *)
Definition sold (row : Sale) (db : DB) : DB :=
  mkDB (member db)
       (alter (λ r, mkBook (btitle r) (bprice r) (bstock r - sqty row))
              (bid row) (book db))
       (<[next_sid db := row]> (sale db))
       (next_sid db).

(** The store refuses one of its next [n] writes. *)
Fixpoint refused_in (n : nat) (answers : list (option sqlite3_Error)) : bool :=
  match n, answers with
  | S _, Some _ :: _ => true
  | S n', None :: rest => refused_in n' rest
  | _, _ => false
  end.

(** No book has a negative stock. *)
Definition stock_nonneg (db : DB) : Prop :=
  map_Forall (λ _ b, 0 ≤ bstock b) (book db).

Definition conn_stock_nonneg (c : Connection) : Prop :=
  stock_nonneg (committed c) ∧ stock_nonneg (working c).

(** The keys of a selection list. *)
Definition sids (rows : list list_row) : list Z := (λ r, r.1.1) <$> rows.

(** A predicate on databases that holds of both sides of a connection. *)
Definition both (P : DB → Prop) (c : Connection) : Prop :=
  P (committed c) ∧ P (working c).

(** The row [s] of [sale] is sound in [db]: its member and its book exist,
    its quantity is positive, its discount is not negative and its total
    is the price of its book times the quantity less the discount. *)
Definition sale_ok (db : DB) (s : Sale) : bool :=
  match member db !! mid s, book db !! bid s with
  | Some _, Some b =>
      (0 <? sqty s) && (0 <=? sdiscount s)
      && (stotal s =? bprice b * sqty s - sdiscount s)
  | _, _ => false
  end.

Definition ledger_ok (db : DB) : Prop :=
  map_Forall (λ _ s, sale_ok db s = true) (sale db).

(** The prices the script of [initialize_db] gives to its three books. *)
Definition seed_prices : list (string * Z) :=
  [("B001", 600); ("B002", 800); ("B003", 1200)].

(** Where a seed book is in [db], it has its seed price. *)
Definition seed_prices_kept (db : DB) : Prop :=
  Forall (λ kp, ∀ b, book db !! kp.1 = Some b → bprice b = kp.2) seed_prices.

Definition sound (db : DB) : Prop := ledger_ok db ∧ seed_prices_kept db.

(** The databases the program can leave on disk, run after run, from no
    file at all. *)
Inductive on_disk : DB → Prop :=
| on_disk_first : on_disk empty_db
| on_disk_run disk lines answers e w :
    on_disk disk →
    main disk lines answers = Some (e, w) →
    on_disk (committed (conn w)).

(** The catalogue of [db'] is the one of [db] with stocks that are at most
    what they were: the same members, the same books with the same titles
    and prices. *)
Definition catalogue_le (db db' : DB) : Prop :=
  member db' = member db
  ∧ ∀ k, option_Forall2
           (λ b b', btitle b' = btitle b ∧ bprice b' = bprice b
                    ∧ bstock b' ≤ bstock b)
           (book db !! k) (book db' !! k).

(** Each side of [c'] comes from a side of [c] by [R]. *)
Definition conn_from (R : DB → DB → Prop) (c c' : Connection) : Prop :=
  (R (committed c) (committed c') ∨ R (working c) (committed c'))
  ∧ (R (committed c) (working c') ∨ R (working c) (working c')).

(** The working database after the UPDATE of an update: [row] under the
    key [sid]. *)
Definition rewritten (sid : Z) (row : Sale) (db : DB) : DB :=
  mkDB (member db) (book db) (<[sid := row]> (sale db)) (sale_seq db).

(** The working database after the DELETE of a delete. *)
Definition removed (sid : Z) (db : DB) : DB :=
  mkDB (member db) (book db) (delete sid (sale db)) (sale_seq db).

(** The row [row] with the discount [d] and the total of [d] at the price
    of [b]. *)
Definition rediscounted (row : Sale) (b : Book) (d : Z) : Sale :=
  mkSale (sdate row) (mid row) (bid row) (sqty row) d (bprice b * sqty row - d).

(** The writes of the operations: a sale of an existing member and book,
    within the stock, under a new key, with the stock deducted; the discount
    and the total of a listed sale rewritten; a listed sale deleted. *)
Inductive write (db : DB) : DB → Prop :=
| write_sold row m b :
    member db !! mid row = Some m →
    book db !! bid row = Some b →
    0 < sqty row ≤ bstock b →
    0 ≤ sdiscount row →
    stotal row = bprice b * sqty row - sdiscount row →
    Py.fits_int64 (next_sid db) = true →
    write db (sold row db)
| write_rewritten sid row m b d :
    sale db !! sid = Some row →
    member db !! mid row = Some m →
    book db !! bid row = Some b →
    0 ≤ d →
    write db (rewritten sid (rediscounted row b d) db)
| write_removed sid row m :
    sale db !! sid = Some row →
    member db !! mid row = Some m →
    write db (removed sid db).

(** What a turn of the menu can make of the connection [c]: nothing, a
    rollback, or one write, committed or left in the open transaction. *)
Definition turn_conn (c c' : Connection) : Prop :=
  c' = c
  ∨ c' = mkConnection (committed c) (committed c)
  ∨ ∃ db', write (working c) db'
           ∧ (c' = mkConnection (committed c) db' ∨ c' = mkConnection db' db').

(** Every key of [sale] is at least 1 and at most the AUTOINCREMENT
    counter. *)
Definition keys_bounded (db : DB) : Prop :=
  map_Forall (λ sid _, 1 ≤ sid ≤ sale_seq db) (sale db).

(** What holds of every database the program leaves on disk. *)
Definition consistent (db : DB) : Prop :=
  sound db ∧ stock_nonneg db ∧ keys_bounded db.

(** The key [sid] is spent in [db]: the AUTOINCREMENT counter has passed
    it and no sale has it. *)
Definition spent (sid : Z) (db : DB) : Prop :=
  sid ≤ sale_seq db ∧ sale db !! sid = None.

(** The rows of [db] are rows of [db'], and the sales of [db'] that are
    new have keys above the AUTOINCREMENT counter of [db]. *)
Definition grows (db db' : DB) : Prop :=
  (∀ k m, member db !! k = Some m → member db' !! k = Some m)
  ∧ (∀ k b, book db !! k = Some b → book db' !! k = Some b)
  ∧ (∀ sid s, sale db !! sid = Some s → sale db' !! sid = Some s)
  ∧ (∀ sid s, sale db' !! sid = Some s →
       sale db !! sid = Some s ∨ sale_seq db < sid)
  ∧ sale_seq db ≤ sale_seq db'.

(** The sales of the script of [initialize_db], each with the key whose
    absence lets it in. *)
Definition seed_sales : list (Z * Sale) :=
  [ (1, mkSale "2024-01-15" "M001" "B001" 2 100 1100);
    (2, mkSale "2024-01-16" "M002" "B002" 1 50 750);
    (3, mkSale "2024-01-17" "M001" "B003" 3 200 3400);
    (4, mkSale "2024-01-18" "M003" "B001" 1 0 600) ].

(** The keys of a report. *)
Definition report_sids (rows : list report_row) : list Z := r_sid <$> rows.

(** ** Symbolic execution

    Statements unfold when they meet a world that is known; [run] follows
    the program and splits on each test it cannot decide. *)

Arguments Py.int : simpl never.
Arguments Py.len : simpl never.
Arguments Py.count : simpl never.
Arguments Py.strip : simpl never.
Arguments Py.fits_int64 : simpl never.
Arguments Py.str : simpl never.
Arguments Py.format_thousands : simpl never.
Arguments msg_stock : simpl never.
Arguments msg_added : simpl never.
Arguments msg_system_error : simpl never.
Arguments msg_updated : simpl never.
Arguments msg_deleted : simpl never.
Arguments msg_operational : simpl never.
Arguments msg_database : simpl never.
Arguments next_sid : simpl never.
Arguments select_sales_list : simpl never.
Arguments select_sales_report : simpl never.
Arguments add_sale : simpl never.
Arguments update_sale : simpl never.
Arguments delete_sale : simpl never.
Arguments show_sales : simpl never.
Arguments menu_turn : simpl never.

Arguments bind {R A B} m k !w /.
Arguments pure {R A} a !w /.
Arguments return_ {R A} r !w /.
Arguments raise {R A} e !w /.
Arguments when {R} c body !w /.
Arguments try_except {R A} body handler !w /.
Arguments def {A} body !w /.
Arguments call {R A} f !w /.
Arguments print {R} o !w /.
Arguments input {R} prompt !w /.
Arguments int {R} s !w /.
Arguments store_step {R} !w /.
Arguments bind_ints {R} !params !w /.
Arguments get_working {R} !w /.
Arguments get_committed {R} !w /.
Arguments run_sql {R} r !w /.
Arguments make_durable {R} !w /.
Arguments query {R A} params select !w /.
Arguments execute {R} params stmt !w /.
Arguments commit {R} !w /.
Arguments rollback {R} !w /.
Arguments subscript {R A} l index !w /.
Arguments fetched {R A} row !w /.
Arguments insert_sale row db /.
Arguments update_book_stock qty b db /.
Arguments update_sale_row discount total sid db /.
Arguments delete_sale_row sid db /.

Ltac exec := repeat (progress (unfold mbind, mret, Stmt_bind, Stmt_ret; cbn)).

(** A test the program makes: decided by a hypothesis that states it, or
    split, dropping a side the arithmetic of the context excludes. *)
Ltac settle x :=
  first
    [ match goal with H : x = _ |- _ => rewrite H end
    | lazymatch type of x with
      | bool => destruct x eqn:?; try (exfalso; lia)
      | _ => destruct x eqn:?
      end ].

Ltac split_stuck :=
  match goal with
  | |- context [bool_decide (?x = _)] => settle x
  | |- context [if ?c then _ else _] => settle c
  | |- context [match ?x with Some _ => _ | None => _ end] => settle x
  | |- context [match ?x with inl _ => _ | inr _ => _ end] => settle x
  | |- context [match ?x with [] => _ | _ :: _ => _ end] => settle x
  | |- context [let (_, _) := ?x in _] => is_var x; destruct x
  end.

Ltac step := split_stuck; exec.
Ltac run := exec; repeat step.

(** Names the result of the operation [f] in the goal and opens its body. *)
Ltac start f body :=
  match goal with
  | |- context [f ?w] =>
      let r := fresh "r" in
      let w' := fresh "w'" in
      let E := fresh "E" in
      destruct (f w) as [r w'] eqn:E; revert E; unfold f, body
  end.

(** Splits the conjunctions and the [is_Some] of the context. *)
Ltac open_hyps :=
  repeat match goal with
         | H : _ ∧ _ |- _ => destruct H
         | H : is_Some _ |- _ => destruct H
         | H : ∃ _, _ |- _ => destruct H
         end.

(** Meets the call of the operation [op] in the goal with the fact [lem]
    about it, and names its result. *)
Ltac meet op lem :=
  match goal with
  | |- context [op ?w0] =>
      let H := fresh "Hop" in
      pose proof (lem w0) as H; cbn [conn] in H;
      destruct (op w0) as [[?|?] [? ? ? ?]]; cbn in H
  end.

(** The clauses of the [except] of the menu loop. *)
Ltac menu_handler :=
  repeat match goal with
         | |- context [match ?e with ValueError => _ | _ => _ end] =>
             destruct e as [ | | | | | [?|?]]; exec
         end.

(** ** Lemmas on the tests and on the tables *)

Lemma date_check_ok sdate :
  Py.len sdate = 10 → Py.count sdate "-" = 2 →
  negb (Py.len sdate =? 10) || negb (Py.count sdate "-" =? 2) = false.
Proof. intros -> ->. reflexivity. Qed.

Lemma date_check_bad sdate :
  ¬ (Py.len sdate = 10 ∧ Py.count sdate "-" = 2) →
  negb (Py.len sdate =? 10) || negb (Py.count sdate "-" =? 2) = true.
Proof.
  intros H. destruct (Py.len sdate =? 10) eqn:E1; [ | reflexivity ].
  destruct (Py.count sdate "-" =? 2) eqn:E2; [ | reflexivity ].
  exfalso. apply H. split; lia.
Qed.

(** The failure messages of [add_sale] differ from one another, and from
    the message of a rolled-back transaction. *)
Lemma messages_distinct stock :
  NoDup (validation_messages stock ++ [msg_rolled_back]).
Proof.
  unfold validation_messages. cbn [app].
  repeat (apply NoDup_cons; split;
          [ rewrite ?elem_of_cons, elem_of_nil; unfold msg_stock; cbn;
            intuition discriminate | ]).
  apply NoDup_nil_2.
Qed.

(** Every key in use is at most [max_sid]. *)
Lemma max_sid_bound db sid row : sale db !! sid = Some row → sid ≤ max_sid db.
Proof.
  unfold max_sid. revert sid row.
  apply (map_fold_weak_ind (λ r (m : gmap Z Sale), ∀ sid row, m !! sid = Some row → sid ≤ r)).
  - intros sid row H. by rewrite lookup_empty in H.
  - intros i x m r Hi IH sid row H.
    destruct (decide (i = sid)) as [->|Hne]; [ lia | ].
    rewrite lookup_insert_ne in H by done. specialize (IH _ _ H). lia.
Qed.

(** The key of a new row is not in use. *)
Lemma next_sid_fresh db : sale db !! next_sid db = None.
Proof.
  destruct (sale db !! next_sid db) as [row|] eqn:E; [ | done ].
  apply max_sid_bound in E. unfold next_sid in E. lia.
Qed.

(** The rows of [sales_by_sid] are the rows of the table. *)
Lemma elem_of_sales_by_sid db sid row :
  (sid, row) ∈ sales_by_sid db ↔ sale db !! sid = Some row.
Proof.
  unfold sales_by_sid. rewrite merge_sort_Permutation.
  apply elem_of_map_to_list.
Qed.

#[local] Instance sid_le_trans : Transitive sid_le.
Proof. intros x y z. unfold sid_le. lia. Qed.

#[local] Instance sid_le_total : Total sid_le.
Proof. intros x y. unfold sid_le. lia. Qed.

(** [ORDER BY s.sid] gives the keys in strictly ascending order. *)
Lemma sales_by_sid_sorted db : StronglySorted Z.lt (sales_by_sid db).*1.
Proof.
  assert (Hnd : NoDup (sales_by_sid db).*1).
  { unfold sales_by_sid. rewrite merge_sort_Permutation.
    apply NoDup_fst_map_to_list. }
  assert (Hs : StronglySorted sid_le (sales_by_sid db))
    by (apply StronglySorted_merge_sort; apply _).
  induction Hs as [|x l Hl IH Hx]; [ constructor | ].
  cbn in Hnd |- *. apply NoDup_cons in Hnd as [Hx' Hnd].
  constructor; [ by apply IH | ].
  apply Forall_fmap, Forall_forall. intros y Hy.
  rewrite Forall_forall in Hx. specialize (Hx y Hy). unfold sid_le in Hx.
  cbn. destruct (decide (x.1 = y.1)) as [Heq|Hne]; [ | lia ].
  exfalso. apply Hx'. rewrite Heq. apply list_elem_of_fmap. eauto.
Qed.

(** A row of the selection list is a sale of the table whose member exists. *)
Lemma elem_of_select_sales_list db sid name date :
  (sid, name, date) ∈ select_sales_list db ↔
  ∃ row m, sale db !! sid = Some row ∧ member db !! mid row = Some m
           ∧ name = mname m ∧ date = sdate row.
Proof.
  unfold select_sales_list. rewrite list_elem_of_omap. split.
  - intros [[sid' row] [Hin Hf]]. apply elem_of_sales_by_sid in Hin.
    cbn in Hf. destruct (member db !! mid row) as [m|] eqn:Hm; [ | done ].
    cbn in Hf. injection Hf as -> <- <-. eauto 10.
  - intros (row & m & Hrow & Hm & -> & ->). exists (sid, row). split.
    + by apply elem_of_sales_by_sid.
    + cbn. by rewrite Hm.
Qed.

(** The selection list is in strictly ascending order of [sid]. *)
Lemma select_sales_list_sorted db : StronglySorted Z.lt (sids (select_sales_list db)).
Proof.
  unfold select_sales_list, sids. pose proof (sales_by_sid_sorted db) as Hs.
  induction (sales_by_sid db) as [|[sid row] l IH]; [ constructor | ].
  cbn in Hs. apply StronglySorted_inv in Hs as [Hs Hall].
  cbn. destruct (member db !! mid row) as [m|]; cbn; [ | by apply IH ].
  constructor; [ by apply IH | ].
  apply Forall_fmap, Forall_forall. intros [[sid' name] date] Hin.
  apply list_elem_of_omap in Hin as [[sid2 row2] [Hin Hf]].
  cbn in Hf. destruct (member db !! mid row2); [ | done ]. cbn in Hf.
  injection Hf as -> _ _. cbn.
  rewrite Forall_forall in Hall. apply Hall. apply list_elem_of_fmap.
  exists (sid', row2). eauto.
Qed.

(** ** Create: validation *)

(** C4: a create whose quantity exceeds the current stock of the resolved
    book fails and changes neither the ledger nor any stock (the connection
    is left as it was); when the checks before the stock check pass, the
    failure message is the one that carries the current stock level. *)
Theorem add_sale_insufficient_stock sdate mid bid q d rest out c fs sqty b :
  Py.int q = Some sqty →
  book (working c) !! bid = Some b →
  bstock b < sqty →
  let res := add_sale (mkWorld (sdate :: mid :: bid :: q :: d :: rest) out c fs) in
  (∃ msg, res.1 = Ok (false, msg))
  ∧ conn res.2 = c
  ∧ (Py.len sdate = 10 → Py.count sdate "-" = 2 → 0 < sqty →
     (∃ sdiscount, Py.int d = Some sdiscount ∧ 0 ≤ sdiscount) →
     is_Some (member (working c) !! mid) →
     res.1 = Ok (false, msg_stock (bstock b))
     ∧ msg_stock (bstock b)
       = "=> 錯誤：庫存不足 (現有庫存: " +:+ Py.str (bstock b) +:+ ")").
Proof.
  intros Hq Hb Hlt res. subst res. destruct c as [cm wk]. cbn [working] in *.
  split; [ | split ].
  - start add_sale add_sale_body. run. all: intros [= <- <-]; eauto.
  - start add_sale add_sale_body. run. all: by intros [= <- <-].
  - intros Hlen Hcount Hpos Hd Hm. open_hyps.
    pose proof (date_check_ok _ Hlen Hcount).
    split; [ | done ].
    start add_sale add_sale_body. run. all: by intros [= <- <-].
Qed.

Lemma add_sale_insufficient_stock_witness :
  let res := add_sale (session ["2024-01-01"; "M001"; "B001"; "100"; "0"]) in
  res.1 = Ok (false, msg_stock 50) ∧ conn res.2 = mkConnection seed_db seed_db.
Proof.
  pose proof (add_sale_insufficient_stock
                "2024-01-01" "M001" "B001" "100" "0" [] []
                (mkConnection seed_db seed_db) [] 100
                (mkBook "Python Programming" 600 50)) as H.
  destruct H as (_ & Hconn & Hmsg).
  - reflexivity.
  - vm_compute. reflexivity.
  - cbn. lia.
  - split; [ | exact Hconn ].
    apply Hmsg; [ reflexivity | reflexivity | lia | | ].
    + exists 0. split; [ reflexivity | lia ].
    + vm_compute. eauto.
Defined.

(** C5, as the code has it: the checks of a create run in the order
    (1) shape of the date, (2) quantity is an integer and positive,
    (3) discount is an integer and not negative, (4) the member exists,
    (5) the book exists, (6) the stock suffices.  The first check that fails
    in this order decides the message, the connection is left as it was, and
    the messages differ from one another. *)
Theorem add_sale_validation_order sdate mid bid q d rest out c fs :
  let res := add_sale (mkWorld (sdate :: mid :: bid :: q :: d :: rest) out c fs) in
  let date_ok := Py.len sdate = 10 ∧ Py.count sdate "-" = 2 in
  (¬ date_ok → fails_with msg_date_format c res)
  ∧ (date_ok → Py.int q = None → fails_with msg_qty_not_int c res)
  ∧ (date_ok → ∀ sqty, Py.int q = Some sqty → sqty ≤ 0 →
     fails_with msg_qty_not_positive c res)
  ∧ (date_ok → ∀ sqty, Py.int q = Some sqty → 0 < sqty →
     (Py.int d = None → fails_with msg_discount_not_int c res)
     ∧ (∀ sdiscount, Py.int d = Some sdiscount → sdiscount < 0 →
        fails_with msg_discount_negative c res)
     ∧ (∀ sdiscount, Py.int d = Some sdiscount → 0 ≤ sdiscount →
        (member (working c) !! mid = None → fails_with msg_no_member c res)
        ∧ (is_Some (member (working c) !! mid) →
           (book (working c) !! bid = None → fails_with msg_no_book c res)
           ∧ (∀ b, book (working c) !! bid = Some b → bstock b < sqty →
              fails_with (msg_stock (bstock b)) c res))))
  ∧ (∀ stock, NoDup (validation_messages stock)).
Proof.
  intros res date_ok. subst res date_ok. destruct c as [cm wk].
  cbn [working]. unfold fails_with.
  repeat match goal with
         | |- _ ∧ _ => split
         | |- NoDup _ => fail 1
         | |- _ → _ => intro
         | |- ∀ _, _ => intro
         end.
  all: try match goal with
         | |- NoDup (validation_messages ?stock) =>
             pose proof (messages_distinct stock) as Hmsgs;
             apply NoDup_app in Hmsgs as (Hmsgs & _ & _); exact Hmsgs
         end.
  all: repeat match goal with
         | H : ¬ _ |- _ => apply date_check_bad in H
         | H : Py.len _ = 10 ∧ _ |- _ =>
             let H1 := fresh in
             let H2 := fresh in
             destruct H as [H1 H2]; pose proof (date_check_ok _ H1 H2)
         end.
  all: open_hyps.
  all: start add_sale add_sale_body; run.
  all: by intros [= <- <-].
Qed.

Lemma add_sale_validation_order_witness :
  (add_sale (session ["2024/01/01"; "M999"; "B999"; "x"; "-1"])).1
  = Ok (false, msg_date_format)
  ∧ (add_sale (session ["2024-01-01"; "M999"; "B999"; "x"; "-1"])).1
    = Ok (false, msg_qty_not_int)
  ∧ (add_sale (session ["2024-01-01"; "M999"; "B999"; "3"; "-1"])).1
    = Ok (false, msg_discount_negative)
  ∧ (add_sale (session ["2024-01-01"; "M999"; "B999"; "3"; "0"])).1
    = Ok (false, msg_no_member)
  ∧ (add_sale (session ["2024-01-01"; "M001"; "B999"; "3"; "0"])).1
    = Ok (false, msg_no_book).
Proof.
  split_and!.
  - destruct (add_sale_validation_order
                "2024/01/01" "M999" "B999" "x" "-1" [] []
                (mkConnection seed_db seed_db) []) as (H & _).
    apply H. intros [_ Hcount]. vm_compute in Hcount. discriminate Hcount.
  - destruct (add_sale_validation_order
                "2024-01-01" "M999" "B999" "x" "-1" [] []
                (mkConnection seed_db seed_db) []) as (_ & H & _).
    apply H; [ split | ]; reflexivity.
  - destruct (add_sale_validation_order
                "2024-01-01" "M999" "B999" "3" "-1" [] []
                (mkConnection seed_db seed_db) []) as (_ & _ & _ & H & _).
    destruct (H (conj eq_refl eq_refl) 3 eq_refl ltac:(lia)) as (_ & Hneg & _).
    apply (Hneg (-1)); [ reflexivity | lia ].
  - destruct (add_sale_validation_order
                "2024-01-01" "M999" "B999" "3" "0" [] []
                (mkConnection seed_db seed_db) []) as (_ & _ & _ & H & _).
    destruct (H (conj eq_refl eq_refl) 3 eq_refl ltac:(lia)) as (_ & _ & Hrest).
    destruct (Hrest 0 eq_refl ltac:(lia)) as (Hmember & _).
    apply Hmember. vm_compute. reflexivity.
  - destruct (add_sale_validation_order
                "2024-01-01" "M001" "B999" "3" "0" [] []
                (mkConnection seed_db seed_db) []) as (_ & _ & _ & H & _).
    destruct (H (conj eq_refl eq_refl) 3 eq_refl ltac:(lia)) as (_ & _ & Hrest).
    destruct (Hrest 0 eq_refl ltac:(lia)) as (_ & Hbook).
    destruct Hbook as (Hbook & _); [ vm_compute; eauto | ].
    apply Hbook. vm_compute. reflexivity.
Defined.


(** C5, as the claim states it, fails: with a member id that does not exist
    and a quantity that is not positive, the failure reported is the one of
    the quantity, not the one of the member. *)
Lemma add_sale_quantity_checked_before_member :
  member seed_db !! "M999" = None
  ∧ Py.int "0" = Some 0
  ∧ (add_sale (session ["2024-01-01"; "M999"; "B001"; "0"; "0"])).1
    = Ok (false, msg_qty_not_positive)
  ∧ msg_qty_not_positive ≠ msg_no_member.
Proof.
  repeat split; try (vm_compute; reflexivity).
  intros H. discriminate H.
Qed.

(** ** Create: the total and the two writes *)

(** C1: for a create that passes the six checks, a sale that is persisted
    is the row typed in with the total [bprice * sqty - sdiscount], whatever
    its sign: the total is negative exactly when the discount exceeds the
    price times the quantity.  The sale is persisted when SQLite can hold
    the integers and the store accepts the three writes. *)
Theorem add_sale_total sdate mid bid q d rest out c fs sqty sdiscount b :
  Py.len sdate = 10 → Py.count sdate "-" = 2 →
  Py.int q = Some sqty → 0 < sqty →
  Py.int d = Some sdiscount → 0 ≤ sdiscount →
  is_Some (member (working c) !! mid) →
  book (working c) !! bid = Some b →
  sqty ≤ bstock b →
  let res := add_sale (mkWorld (sdate :: mid :: bid :: q :: d :: rest) out c fs) in
  let stotal := bprice b * sqty - sdiscount in
  let row := mkSale sdate mid bid sqty sdiscount stotal in
  let sid := next_sid (working c) in
  (∀ msg, res.1 = Ok (true, msg) →
     msg = msg_added stotal
     ∧ sale (working c) !! sid = None
     ∧ sale (committed (conn res.2)) = <[sid := row]> (sale (working c)))
  ∧ (Py.fits_int64 sqty && Py.fits_int64 sdiscount && Py.fits_int64 stotal
     && Py.fits_int64 sid = true →
     refused_in 3 fs = false →
     res.1 = Ok (true, msg_added stotal))
  ∧ (stotal < 0 ↔ bprice b * sqty < sdiscount).
Proof.
  intros Hlen Hcount Hq Hpos Hd Hnn Hm Hb Hstock res stotal row sid.
  subst res stotal row sid. destruct c as [cm wk]. cbn [working] in *.
  pose proof (date_check_ok _ Hlen Hcount). open_hyps.
  split; [ | split ]; [ | | lia ].
  - intros msg. start add_sale add_sale_body. run.
    all: intros [= <- <-]; cbn; intros [= <-].
    all: split; [ done | ]; split; [ apply next_sid_fresh | done ].
  - intros Hfits Hstore.
    apply andb_prop in Hfits as [Hfits Hf4].
    apply andb_prop in Hfits as [Hfits Hf3].
    apply andb_prop in Hfits as [Hf1 Hf2].
    start add_sale add_sale_body. run.
    all: intros [= <- <-]; try done.
    all: cbn in Hstore; congruence.
Qed.

Lemma add_sale_total_witness :
  let res := add_sale (session ["2024-01-01"; "M001"; "B001"; "1"; "700"]) in
  res.1 = Ok (true, msg_added (-100))
  ∧ stotal <$> sale (committed (conn res.2)) !! 5 = Some (-100).
Proof.
  pose proof (add_sale_total
                "2024-01-01" "M001" "B001" "1" "700" [] []
                (mkConnection seed_db seed_db) [] 1 700
                (mkBook "Python Programming" 600 50)) as H.
  destruct H as (Hrow & Hok & _).
  - reflexivity.
  - reflexivity.
  - reflexivity.
  - lia.
  - reflexivity.
  - lia.
  - vm_compute. eauto.
  - vm_compute. reflexivity.
  - cbn. lia.
  - cbn zeta in Hrow, Hok |- *.
    assert (Hres : (add_sale (session ["2024-01-01"; "M001"; "B001"; "1"; "700"])).1
                   = Ok (true, msg_added (-100))).
    { apply Hok; vm_compute; reflexivity. }
    split; [ exact Hres | ].
    destruct (Hrow _ Hres) as (_ & _ & Hsale).
    unfold session. rewrite Hsale.
    vm_compute. reflexivity.
Defined.

(** ** Create: the two writes are one unit *)

(** Every way a create can end. *)
Lemma add_sale_outcomes w :
  let res := add_sale w in
  let wk := working (conn w) in
  (∃ row b msg,
     res.1 = Ok (true, msg)
     ∧ book wk !! bid row = Some b ∧ 0 < sqty row ≤ bstock b
     ∧ sale wk !! next_sid wk = None
     ∧ conn res.2 = mkConnection (sold row wk) (sold row wk))
  ∨ (∃ msg,
       res.1 = Ok (false, msg)
       ∧ committed (conn res.2) = committed (conn w)
       ∧ (working (conn res.2) = working (conn w)
          ∨ working (conn res.2) = committed (conn w))).
Proof.
  destruct w as [lines out [cm wk] fs]. intros res wk'. subst res wk'.
  cbn [conn working committed].
  start add_sale add_sale_body. run.
  all: intros [= <- <-]; cbn.
  all: first
         [ right; eexists; split; [ reflexivity | ];
           split; [ reflexivity | ]; (by left) || (by right)
         | left; eexists (mkSale _ _ _ _ _ _), _, _; cbn;
           split; [ reflexivity | ];
           refine (conj _ (conj _ (conj _ _))); [ | | | reflexivity ];
           [ eassumption | lia | apply next_sid_fresh ] ].
Qed.

(** C2, as amended: the two writes of a create are one unit.  Whatever is
    typed and whatever the store answers, a create ends either in success
    with both writes committed (the new row under a new key and the stock of
    its book less its quantity), or in failure with the committed database
    as it was and the working database as it was or reset to the committed
    one.  When the input passes the checks and SQLite can hold the integers,
    a refusal by the store at the INSERT, the UPDATE or the COMMIT rolls the
    open transaction back, the two writes with whatever else was uncommitted
    on the connection, which is then at the committed database, and gives
    the message of a failed transaction, which is none of the validation
    messages; without a refusal both writes are committed.  On a connection
    with nothing uncommitted, a create that fails leaves the connection
    exactly as it was. *)
Theorem add_sale_atomic :
  (∀ w, let res := add_sale w in
     (∃ row msg,
        res.1 = Ok (true, msg)
        ∧ sale (working (conn w)) !! next_sid (working (conn w)) = None
        ∧ conn res.2 = mkConnection (sold row (working (conn w)))
                                    (sold row (working (conn w))))
     ∨ (∃ msg,
          res.1 = Ok (false, msg)
          ∧ committed (conn res.2) = committed (conn w)
          ∧ (working (conn res.2) = working (conn w)
             ∨ working (conn res.2) = committed (conn w))))
  ∧ (∀ sdate mid bid q d rest out c fs sqty sdiscount b,
       Py.len sdate = 10 → Py.count sdate "-" = 2 →
       Py.int q = Some sqty → 0 < sqty →
       Py.int d = Some sdiscount → 0 ≤ sdiscount →
       is_Some (member (working c) !! mid) →
       book (working c) !! bid = Some b →
       sqty ≤ bstock b →
       let res := add_sale (mkWorld (sdate :: mid :: bid :: q :: d :: rest) out c fs) in
       let stotal := bprice b * sqty - sdiscount in
       let row := mkSale sdate mid bid sqty sdiscount stotal in
       Py.fits_int64 sqty && Py.fits_int64 sdiscount && Py.fits_int64 stotal = true →
       (refused_in 3 fs = true ∨ Py.fits_int64 (next_sid (working c)) = false →
        res.1 = Ok (false, msg_rolled_back)
        ∧ conn res.2 = mkConnection (committed c) (committed c))
       ∧ (refused_in 3 fs = false → Py.fits_int64 (next_sid (working c)) = true →
          res.1 = Ok (true, msg_added stotal)
          ∧ conn res.2 = mkConnection (sold row (working c)) (sold row (working c))))
  ∧ (∀ stock, msg_rolled_back ∉ validation_messages stock)
  ∧ (∀ w msg,
       working (conn w) = committed (conn w) →
       (add_sale w).1 = Ok (false, msg) →
       conn (add_sale w).2 = conn w).
Proof.
  split; [ | split; [ | split ] ].
  - intros w res. subst res.
    destruct (add_sale_outcomes w) as [(row & b & msg & Hok & _ & _ & Hnew & Hconn)|Hfail].
    + left. eauto.
    + by right.
  - intros sdate mid bid q d rest out [cm wk] fs sqty sdiscount b
           Hlen Hcount Hq Hpos Hd Hnn Hm Hb Hstock res stotal row Hfits.
    subst res stotal row. cbn [working committed] in *.
    pose proof (date_check_ok _ Hlen Hcount). open_hyps.
    apply andb_prop in Hfits as [Hfits Hf3].
    apply andb_prop in Hfits as [Hf1 Hf2].
    split.
    + intros Hrefused. start add_sale add_sale_body. run.
      all: intros [= <- <-]; try done.
      all: cbn in Hrefused; destruct Hrefused; congruence.
    + intros Hstore Hf4. start add_sale add_sale_body. run.
      all: intros [= <- <-]; try done.
      all: cbn in Hstore; congruence.
  - intros stock Hin. pose proof (messages_distinct stock) as Hnd.
    apply NoDup_app in Hnd as (_ & Hnd & _). apply (Hnd _ Hin).
    apply list_elem_of_singleton. reflexivity.
  - intros w msg Hclean Hfail.
    destruct (add_sale_outcomes w)
      as [(row & b & msg' & Hok & _)|(msg' & _ & Hcm & Hwk)].
    + rewrite Hok in Hfail. discriminate Hfail.
    + destruct (conn (add_sale w).2) as [cm' wk'], (conn w) as [cm wk].
      cbn in *. destruct Hwk; congruence.
Qed.

Lemma add_sale_atomic_witness :
  let w := mkWorld ["2024-01-01"; "M001"; "B001"; "2"; "100"] []
                   (mkConnection seed_db seed_db)
                   [None; Some (OperationalError "database is locked")] in
  (add_sale w).1 = Ok (false, msg_rolled_back)
  ∧ conn (add_sale w).2 = mkConnection seed_db seed_db
  ∧ msg_rolled_back ∉ validation_messages 50.
Proof.
  destruct add_sale_atomic as (_ & Hstep & Hmsg & _).
  destruct (Hstep "2024-01-01" "M001" "B001" "2" "100" [] []
              (mkConnection seed_db seed_db)
              [None; Some (OperationalError "database is locked")]
              2 100 (mkBook "Python Programming" 600 50)) as (Hrefused & _).
  - reflexivity.
  - reflexivity.
  - reflexivity.
  - lia.
  - reflexivity.
  - lia.
  - vm_compute. eauto.
  - vm_compute. reflexivity.
  - cbn. lia.
  - vm_compute. reflexivity.
  - cbn zeta. destruct Hrefused as (Hres & Hconn); [ left; reflexivity | ].
    split; [ exact Hres | ]. split; [ exact Hconn | apply Hmsg ].
Defined.

(** C2, the claim as it is stated, at a connection that holds a write left
    uncommitted: an update whose COMMIT the store refused has rewritten the
    discount of sale 1 in the open transaction, which [update_sale] does not
    roll back.  A create whose COMMIT is refused then rolls the whole
    transaction back: it reports the failed transaction and the discount of
    sale 1 is the committed one again, so the state before the create is not
    left as it was. *)
Lemma add_sale_rollback_discards_pending :
  let locked := OperationalError "database is locked" in
  let w1 := (update_sale (mkWorld ["1"; "500"] [] (mkConnection seed_db seed_db)
                                  [None; Some locked])).2 in
  let w2 := mkWorld ["2024-01-01"; "M001"; "B001"; "2"; "100"] [] (conn w1)
                    [None; None; Some locked] in
  sdiscount <$> sale (committed (conn w2)) !! 1 = Some 100
  ∧ sdiscount <$> sale (working (conn w2)) !! 1 = Some 500
  ∧ (add_sale w2).1 = Ok (false, msg_rolled_back)
  ∧ sdiscount <$> sale (working (conn (add_sale w2).2)) !! 1 = Some 100
  ∧ conn (add_sale w2).2 ≠ conn w2.
Proof.
  intros locked w1 w2. split_and!; [ vm_compute; reflexivity .. | ].
  intros Heq.
  apply (f_equal (λ c, sdiscount <$> sale (working c) !! 1)) in Heq.
  vm_compute in Heq. discriminate Heq.
Qed.


Example add_sale_rolled_back :
  let w := mkWorld ["2024-01-01"; "M001"; "B001"; "2"; "100"] []
                   (mkConnection seed_db seed_db)
                   [None; Some (OperationalError "disk I/O error")] in
  (add_sale w).1 = Ok (false, msg_rolled_back)
  ∧ conn (add_sale w).2 = mkConnection seed_db seed_db.
Proof. split; vm_compute; reflexivity. Qed.

Example add_sale_both_writes :
  let res := add_sale (session ["2024-01-01"; "M001"; "B001"; "2"; "100"]) in
  res.1 = Ok (true, msg_added 1100)
  ∧ bstock <$> book (committed (conn res.2)) !! "B001" = Some 48
  ∧ stotal <$> sale (committed (conn res.2)) !! 5 = Some 1100.
Proof. repeat split; vm_compute; reflexivity. Qed.

(** ** Stock is never negative *)

Lemma stock_nonneg_sold row db b :
  stock_nonneg db → book db !! bid row = Some b → sqty row ≤ bstock b →
  stock_nonneg (sold row db).
Proof.
  intros Hdb Hb Hle. unfold stock_nonneg, sold. cbn.
  apply map_Forall_lookup. intros i x Hx.
  destruct (decide (bid row = i)) as [<-|Hne].
  - rewrite lookup_alter_eq, Hb in Hx. injection Hx as <-. cbn. lia.
  - rewrite lookup_alter_ne in Hx by done.
    exact (map_Forall_lookup_1 _ _ _ _ Hdb Hx).
Qed.

Lemma add_sale_stock_nonneg w :
  conn_stock_nonneg (conn w) → conn_stock_nonneg (conn (add_sale w).2).
Proof.
  intros [Hc Hw]. unfold conn_stock_nonneg.
  destruct (add_sale_outcomes w)
    as [(row & b & msg & _ & Hb & Hq & _ & ->)|(msg & _ & -> & [->| ->])].
  - cbn. split; eapply stock_nonneg_sold; eauto; lia.
  - done.
  - done.
Qed.

(** An update writes no row of [member] or [book], and no key of [sale]
    comes or goes. *)
Lemma update_sale_frame w :
  let c := conn w in
  let c' := conn (update_sale w).2 in
  member (working c') = member (working c)
  ∧ book (working c') = book (working c)
  ∧ sale_seq (working c') = sale_seq (working c)
  ∧ (committed c' = committed c ∨ committed c' = working c').
Proof.
  destruct w as [lines out [cm wk] fs]. intros c c'. subst c c'.
  cbn [conn working committed].
  start update_sale update_sale_body. run.
  all: intros [= <- <-]; cbn; auto.
Qed.

(** A delete writes no row of [member] or [book]. *)
Lemma delete_sale_frame w :
  let c := conn w in
  let c' := conn (delete_sale w).2 in
  member (working c') = member (working c)
  ∧ book (working c') = book (working c)
  ∧ sale_seq (working c') = sale_seq (working c)
  ∧ (committed c' = committed c ∨ committed c' = working c').
Proof.
  destruct w as [lines out [cm wk] fs]. intros c c'. subst c c'.
  cbn [conn working committed].
  start delete_sale delete_sale_body. run.
  all: intros [= <- <-]; cbn; auto.
Qed.

Lemma show_sales_conn w : conn (show_sales w).2 = conn w.
Proof.
  destruct w as [lines out c fs]. start show_sales show_sales_body. run.
  all: by intros [= <- <-].
Qed.

Lemma frame_stock_nonneg c c' :
  book (working c') = book (working c) →
  committed c' = committed c ∨ committed c' = working c' →
  conn_stock_nonneg c → conn_stock_nonneg c'.
Proof.
  unfold conn_stock_nonneg, stock_nonneg. intros Hb Hc [H1 H2].
  rewrite Hb. destruct Hc as [-> | ->]; [ done | ]. by rewrite Hb.
Qed.

Lemma update_sale_stock_nonneg w :
  conn_stock_nonneg (conn w) → conn_stock_nonneg (conn (update_sale w).2).
Proof.
  destruct (update_sale_frame w) as (_ & Hb & _ & Hc).
  by apply frame_stock_nonneg.
Qed.

Lemma delete_sale_stock_nonneg w :
  conn_stock_nonneg (conn w) → conn_stock_nonneg (conn (delete_sale w).2).
Proof.
  destruct (delete_sale_frame w) as (_ & Hb & _ & Hc).
  by apply frame_stock_nonneg.
Qed.

Lemma menu_turn_stock_nonneg w :
  conn_stock_nonneg (conn w) → conn_stock_nonneg (conn (menu_turn w).2).
Proof.
  destruct w as [lines out c fs]. intros Hc. cbn [conn] in Hc.
  start menu_turn menu_turn_body. exec.
  destruct lines as [|choice lines]; exec; [ by intros [= <- <-] | ].
  repeat (split_stuck; exec).
  - meet add_sale add_sale_stock_nonneg; exec; menu_handler.
    all: try destruct a; exec.
    all: intros [= <- <-]; cbn; auto.
  - meet show_sales show_sales_conn; exec; menu_handler.
    all: intros [= <- <-]; cbn; congruence.
  - meet update_sale update_sale_stock_nonneg; exec; menu_handler.
    all: intros [= <- <-]; cbn; auto.
  - meet delete_sale delete_sale_stock_nonneg; exec; menu_handler.
    all: intros [= <- <-]; cbn; auto.
  - by intros [= <- <-].
  - by intros [= <- <-].
Qed.

Lemma main_loop_stock_nonneg fuel w e w' :
  conn_stock_nonneg (conn w) → main_loop fuel w = Some (e, w') →
  conn_stock_nonneg (conn w').
Proof.
  revert w. induction fuel as [|fuel IH]; intros w Hc; [ done | ].
  cbn. pose proof (menu_turn_stock_nonneg w Hc) as Hturn.
  destruct (menu_turn w) as [[[|]|err] w1]; cbn in Hturn.
  - by intros [= <- <-].
  - by apply IH.
  - by intros [= <- <-].
Qed.

Lemma insert_or_ignore_Forall {A} (P : string → A → Prop) key row t :
  P key row → map_Forall P t → map_Forall P (insert_or_ignore key row t).
Proof.
  intros Hrow Ht. unfold insert_or_ignore.
  destruct (t !! key); [ done | ]. by apply map_Forall_insert_2.
Qed.

(** What every statement of a script keeps, the script keeps. *)
Lemma executescript_keeps (P : DB → Prop) script db :
  Forall (λ stmt, ∀ db db', P db → stmt db = inr db' → P db') script →
  P db → P (executescript script db).2.
Proof.
  intros Hall. revert db. induction Hall as [|stmt script Hstmt _ IH]; intros db Hdb.
  - done.
  - cbn. destruct (stmt db) as [err|db'] eqn:E; [ done | ]. eauto.
Qed.

Lemma initialize_db_stock_nonneg db :
  stock_nonneg db → stock_nonneg (initialize_db db).2.
Proof.
  apply executescript_keeps. unfold seed_script, stock_nonneg.
  repeat apply Forall_cons_2; [ .. | apply Forall_nil_2 ].
  all: intros db0 db1 H0.
  all: first
         [ intros [= <-]; cbn;
           first [ exact H0
                 | apply insert_or_ignore_Forall; [ cbn; lia | exact H0 ] ]
         | unfold insert_sale_unless, insert_sale;
           destruct (sale db0 !! _); [ by intros [= <-] | ];
           destruct (Py.fits_int64 (next_sid db0)); [ by intros [= <-] | done ] ].
Qed.

(** C3: no stock goes negative.  From a connection whose stocks are all at
    least 0, a create, an update and a delete each end with all stocks at
    least 0, in the working and in the committed database; an update and a
    delete write no row of [book] at all; and so every state the menu loop
    reaches, and every state the program reaches from a database file with
    no negative stock, has no negative stock. *)
Theorem stock_never_negative w :
  conn_stock_nonneg (conn w) →
  conn_stock_nonneg (conn (add_sale w).2)
  ∧ conn_stock_nonneg (conn (update_sale w).2)
  ∧ conn_stock_nonneg (conn (delete_sale w).2)
  ∧ book (working (conn (update_sale w).2)) = book (working (conn w))
  ∧ book (working (conn (delete_sale w).2)) = book (working (conn w))
  ∧ (∀ fuel e w', main_loop fuel w = Some (e, w') → conn_stock_nonneg (conn w'))
  ∧ (∀ lines answers e w',
       main (working (conn w)) lines answers = Some (e, w') →
       conn_stock_nonneg (conn w')).
Proof.
  intros Hc. split_and!.
  - by apply add_sale_stock_nonneg.
  - by apply update_sale_stock_nonneg.
  - by apply delete_sale_stock_nonneg.
  - apply (update_sale_frame w).
  - apply (delete_sale_frame w).
  - intros fuel e w'. by apply main_loop_stock_nonneg.
  - intros lines answers e w'. unfold main.
    pose proof (initialize_db_stock_nonneg _ (proj2 Hc)) as Hinit.
    destruct (initialize_db (working (conn w))) as [[err|] db]; cbn in Hinit.
    + by intros [= <- <-].
    + by apply main_loop_stock_nonneg.
Qed.

Lemma seed_stock_nonneg : conn_stock_nonneg (conn (session [])).
Proof.
  split; cbn; apply initialize_db_stock_nonneg, map_Forall_empty.
Qed.

Lemma stock_never_negative_witness :
  conn_stock_nonneg (conn (add_sale (session ["2024-01-01"; "M001"; "B001"; "50"; "0"])).2)
  ∧ bstock <$> book (committed (conn (add_sale (session ["2024-01-01"; "M001"; "B001"; "50"; "0"])).2)) !! "B001" = Some 0.
Proof.
  split.
  - apply (stock_never_negative (session ["2024-01-01"; "M001"; "B001"; "50"; "0"])).
    exact seed_stock_nonneg.
  - vm_compute. reflexivity.
Defined.

(** ** Selection, update and delete *)

Lemma isspace_not_literal c :
  Py.isspace c = true →
  Py.digit c = None ∧ Ascii.eqb c "+" = false ∧ Ascii.eqb c "-" = false
  ∧ Ascii.eqb c "_" = false.
Proof.
  destruct c as [[] [] [] [] [] [] [] []]; vm_compute; intros H;
    first [ discriminate H | repeat split ].
Qed.

Lemma lstrip_by_nil sp l : Py.lstrip_by sp l = [] → Forall (λ c, sp c = true) l.
Proof.
  induction l as [|c l IH]; cbn; [ constructor | ].
  destruct (sp c) eqn:E; [ | done ]. intros H. constructor; auto.
Qed.

Lemma lstrip_by_subseteq sp l : Py.lstrip_by sp l ⊆ l.
Proof.
  induction l as [|c l IH]; cbn; [ done | ].
  destruct (sp c); [ | done ]. intros x Hx. right. by apply IH.
Qed.

Lemma lstrip_by_head sp l c l' : Py.lstrip_by sp l = c :: l' → sp c = false.
Proof.
  induction l as [|x l IH]; cbn; [ done | ].
  destruct (sp x) eqn:E; [ done | ]. by intros [= <- _].
Qed.

Lemma strip_by_subseteq sp l : Py.strip_by sp l ⊆ l.
Proof.
  unfold Py.strip_by. intros c Hc. rewrite elem_of_reverse in Hc.
  apply (lstrip_by_subseteq sp _ c) in Hc. rewrite elem_of_reverse in Hc.
  by apply (lstrip_by_subseteq sp _ c) in Hc.
Qed.

Lemma strip_by_nil sp l : Py.strip_by sp l = [] → Forall (λ c, sp c = true) l.
Proof.
  unfold Py.strip_by. intros H.
  apply (f_equal reverse) in H. rewrite reverse_involutive in H. cbn in H.
  apply lstrip_by_nil in H. rewrite Forall_reverse in H.
  destruct (Py.lstrip_by sp l) as [|c l'] eqn:E.
  - by apply lstrip_by_nil.
  - apply lstrip_by_head in E. apply Forall_cons in H as [H _]. congruence.
Qed.

(** A text that [int] reads is not blank for [strip]. *)
Lemma int_not_blank s n : Py.int s = Some n → Py.strip s ≠ "".
Proof.
  intros Hint Hblank. unfold Py.strip in Hblank.
  apply (f_equal list_ascii_of_string) in Hblank.
  rewrite list_ascii_of_string_of_list_ascii in Hblank. cbn in Hblank.
  apply strip_by_nil in Hblank.
  unfold Py.int in Hint.
  pose proof (strip_by_subseteq Py.int_space (list_ascii_of_string s)) as Hsub.
  destruct (Py.strip_by Py.int_space (list_ascii_of_string s)) as [|c l]; [ done | ].
  assert (Hc : Py.isspace c = true).
  { rewrite Forall_forall in Hblank. apply Hblank, Hsub. left. }
  apply isspace_not_literal in Hc as (Hd & Hp & Hm & Hu).
  unfold Py.int_signed in Hint. rewrite Hp, Hm in Hint. cbn in Hint.
  rewrite Hd, Hu in Hint. done.
Qed.

Lemma strip_test choice : Py.strip choice ≠ "" → (Py.strip choice =? "")%string = false.
Proof. intros H. by apply String.eqb_neq. Qed.

Lemma alter_lookup_insert {A} (f : A → A) (m : gmap Z A) i x :
  m !! i = Some x → alter f i m = <[i := f x]> m.
Proof.
  intros Hx. apply map_eq. intros j. destruct (decide (i = j)) as [<-|Hne].
  - by rewrite lookup_alter_eq, lookup_insert_eq, Hx.
  - by rewrite lookup_alter_ne, lookup_insert_ne.
Qed.

(** The index of a valid choice, as [sales[index]] reads it. *)
Lemma range_test {A} (l : list A) n x :
  l !! Z.to_nat (n - 1) = Some x → 1 ≤ n →
  negb ((0 <=? n - 1) && (n - 1 <? Z.of_nat (length l))) = false.
Proof.
  intros Hx Hn. apply lookup_lt_Some in Hx. lia.
Qed.

(** A valid selection and a valid discount: what an update does. *)
Lemma update_sale_run choice d rest out c fs n sid name date sdiscount row b :
  Py.int choice = Some n →
  1 ≤ n →
  select_sales_list (working c) !! Z.to_nat (n - 1) = Some (sid, name, date) →
  Py.int d = Some sdiscount →
  0 ≤ sdiscount →
  sale (working c) !! sid = Some row →
  book (working c) !! bid row = Some b →
  let res := update_sale (mkWorld (choice :: d :: rest) out c fs) in
  let stotal := bprice b * sqty row - sdiscount in
  let row' := mkSale (sdate row) (mid row) (bid row) (sqty row) sdiscount stotal in
  let wk := working c in
  let wk' := mkDB (member wk) (book wk) (<[sid := row']> (sale wk)) (sale_seq wk) in
  (conn res.2 = c
   ∨ conn res.2 = mkConnection (committed c) wk'
   ∨ conn res.2 = mkConnection wk' wk')
  ∧ (Py.fits_int64 sdiscount && Py.fits_int64 stotal = true →
     refused_in 2 fs = false →
     res.1 = Ok tt
     ∧ conn res.2 = mkConnection wk' wk'
     ∧ last (stdout res.2) = Some (Line (msg_updated sid stotal)))
  ∧ (Py.fits_int64 sdiscount && Py.fits_int64 stotal = false →
     res.1 = Err OverflowError ∧ conn res.2 = c).
Proof.
  intros Hchoice Hn Hsel Hd Hnn Hrow Hb res stotal row' wk wk'.
  subst res stotal row' wk wk'. destruct c as [cm wk]. cbn [working committed] in *.
  pose proof (strip_test _ (int_not_blank _ _ Hchoice)) as Hstrip.
  pose proof (range_test _ _ _ Hsel Hn) as Hrange.
  pose proof (alter_lookup_insert
                (λ r, mkSale (sdate r) (mid r) (bid r) (sqty r) sdiscount
                             (bprice b * sqty row - sdiscount)) _ _ _ Hrow) as Halter.
  destruct (select_sales_list wk) as [|first others] eqn:Hlist.
  { by rewrite lookup_nil in Hsel. }
  cbn in Hrange.
  split; [ | split ].
  - start update_sale update_sale_body. run.
    all: intros [= <- <-]; cbn; rewrite ?Halter; auto.
  - intros Hfits Hstore. apply andb_prop in Hfits as [Hf1 Hf2].
    start update_sale update_sale_body. run.
    all: intros [= <- <-]; cbn; rewrite ?Halter, ?last_snoc; try done.
    all: cbn in Hstore; congruence.
  - intros Hfits. apply andb_false_iff in Hfits.
    start update_sale update_sale_body. run.
    all: intros [= <- <-]; cbn; try done.
    all: destruct Hfits; congruence.
Qed.

(** A valid selection: what a delete does. *)
Lemma delete_sale_run choice rest out c fs n sid name date :
  Py.int choice = Some n →
  1 ≤ n →
  select_sales_list (working c) !! Z.to_nat (n - 1) = Some (sid, name, date) →
  let res := delete_sale (mkWorld (choice :: rest) out c fs) in
  let wk := working c in
  let wk' := mkDB (member wk) (book wk) (delete sid (sale wk)) (sale_seq wk) in
  (conn res.2 = c
   ∨ conn res.2 = mkConnection (committed c) wk'
   ∨ conn res.2 = mkConnection wk' wk')
  ∧ (refused_in 2 fs = false →
     res.1 = Ok tt
     ∧ conn res.2 = mkConnection wk' wk'
     ∧ last (stdout res.2) = Some (Line (msg_deleted sid))).
Proof.
  intros Hchoice Hn Hsel res wk wk'.
  subst res wk wk'. destruct c as [cm wk]. cbn [working committed] in *.
  pose proof (strip_test _ (int_not_blank _ _ Hchoice)) as Hstrip.
  pose proof (range_test _ _ _ Hsel Hn) as Hrange.
  destruct (select_sales_list wk) as [|first others] eqn:Hlist.
  { by rewrite lookup_nil in Hsel. }
  cbn in Hrange.
  split.
  - start delete_sale delete_sale_body. run.
    all: intros [= <- <-]; cbn; auto.
  - intros Hstore.
    start delete_sale delete_sale_body. run.
    all: intros [= <- <-]; cbn; rewrite ?last_snoc; try done.
    all: cbn in Hstore; congruence.
Qed.

(** A row of the selection list is a sale of the table. *)
Lemma selected_sale db i sid name date :
  select_sales_list db !! i = Some (sid, name, date) →
  ∃ row, sale db !! sid = Some row.
Proof.
  intros H. apply list_elem_of_lookup_2, elem_of_select_sales_list in H.
  destruct H as (row & m & Hrow & _). eauto.
Qed.

(** C6: an update with a valid selection and a valid discount takes the
    quantity from the stored sale and the price from the book as it is now,
    whatever total the sale had before, and puts
    [bprice * sqty - sdiscount] as the total.  Whatever the store answers,
    the connection ends as it was or with exactly the discount and the
    total of the selected sale rewritten: date, member, book and quantity of
    the sale, every other sale, and every row of [member] and [book] (so
    every stock) stay as they were.  The rewrite is committed when SQLite
    can hold the two integers and the store accepts the two writes. *)
Theorem update_sale_recomputes choice d rest out c fs n sid name date sdiscount row b :
  Py.int choice = Some n →
  1 ≤ n →
  select_sales_list (working c) !! Z.to_nat (n - 1) = Some (sid, name, date) →
  Py.int d = Some sdiscount →
  0 ≤ sdiscount →
  sale (working c) !! sid = Some row →
  book (working c) !! bid row = Some b →
  let res := update_sale (mkWorld (choice :: d :: rest) out c fs) in
  let stotal := bprice b * sqty row - sdiscount in
  let row' := mkSale (sdate row) (mid row) (bid row) (sqty row) sdiscount stotal in
  let wk := working c in
  let wk' := mkDB (member wk) (book wk) (<[sid := row']> (sale wk)) (sale_seq wk) in
  (conn res.2 = c
   ∨ conn res.2 = mkConnection (committed c) wk'
   ∨ conn res.2 = mkConnection wk' wk')
  ∧ (Py.fits_int64 sdiscount && Py.fits_int64 stotal = true →
     refused_in 2 fs = false →
     res.1 = Ok tt
     ∧ conn res.2 = mkConnection wk' wk'
     ∧ last (stdout res.2) = Some (Line (msg_updated sid stotal)))
  ∧ (∀ sid', sid' ≠ sid → sale wk' !! sid' = sale wk !! sid')
  ∧ book wk' = book wk.
Proof.
  intros Hchoice Hn Hsel Hd Hnn Hrow Hb res stotal row' wk wk'.
  destruct (update_sale_run choice d rest out c fs n sid name date sdiscount
              row b Hchoice Hn Hsel Hd Hnn Hrow Hb) as (Hframe & Hok & _).
  split_and!; [ exact Hframe | exact Hok | | done ].
  intros sid' Hne. subst wk'. cbn. by rewrite lookup_insert_ne.
Qed.

Lemma update_sale_recomputes_witness :
  let w := mkWorld ["1"; "50"] [] (mkConnection repriced_db repriced_db) [] in
  stotal <$> sale repriced_db !! 1 = Some 1100
  ∧ (update_sale w).1 = Ok tt
  ∧ sale (committed (conn (update_sale w).2)) !! 1
    = Some (mkSale "2024-01-15" "M001" "B001" 2 50 1350)
  ∧ book (committed (conn (update_sale w).2)) = book repriced_db.
Proof.
  pose proof (update_sale_recomputes
                "1" "50" [] [] (mkConnection repriced_db repriced_db) []
                1 1 "Alice" "2024-01-15" 50
                (mkSale "2024-01-15" "M001" "B001" 2 100 1100)
                (mkBook "Python Programming" 700 50)) as H.
  destruct H as (_ & Hok & _).
  - reflexivity.
  - lia.
  - vm_compute. reflexivity.
  - reflexivity.
  - lia.
  - vm_compute. reflexivity.
  - vm_compute. reflexivity.
  - cbn zeta in Hok |- *. destruct Hok as (Hres & Hconn & _).
    + vm_compute. reflexivity.
    + reflexivity.
    + split; [ vm_compute; reflexivity | ].
      split; [ exact Hres | ]. rewrite Hconn. cbn.
      split; [ | reflexivity ]. apply lookup_insert_eq.
Defined.

(** C7: a delete with a valid selection removes the selected row of [sale]
    and nothing else.  Whatever the store answers, the connection ends as it
    was or with exactly that row gone: every other sale and every row of
    [member] and [book] stay as they were, so the stock of the book of the
    deleted sale is not given back.  The removal is committed when the
    store accepts the two writes. *)
Theorem delete_sale_removes choice rest out c fs n sid name date :
  Py.int choice = Some n →
  1 ≤ n →
  select_sales_list (working c) !! Z.to_nat (n - 1) = Some (sid, name, date) →
  let res := delete_sale (mkWorld (choice :: rest) out c fs) in
  let wk := working c in
  let wk' := mkDB (member wk) (book wk) (delete sid (sale wk)) (sale_seq wk) in
  (conn res.2 = c
   ∨ conn res.2 = mkConnection (committed c) wk'
   ∨ conn res.2 = mkConnection wk' wk')
  ∧ (refused_in 2 fs = false →
     res.1 = Ok tt
     ∧ conn res.2 = mkConnection wk' wk'
     ∧ last (stdout res.2) = Some (Line (msg_deleted sid)))
  ∧ is_Some (sale wk !! sid)
  ∧ sale wk' !! sid = None
  ∧ (∀ sid', sid' ≠ sid → sale wk' !! sid' = sale wk !! sid')
  ∧ book wk' = book wk
  ∧ member wk' = member wk.
Proof.
  intros Hchoice Hn Hsel res wk wk'.
  destruct (delete_sale_run choice rest out c fs n sid name date
              Hchoice Hn Hsel) as (Hframe & Hok).
  split_and!; [ exact Hframe | exact Hok | | | | done | done ].
  - destruct (selected_sale _ _ _ _ _ Hsel) as [row Hrow]. by exists row.
  - subst wk'. cbn. apply lookup_delete_eq.
  - intros sid' Hne. subst wk'. cbn. by rewrite lookup_delete_ne.
Qed.

Lemma delete_sale_removes_witness :
  let w := session ["1"] in
  (delete_sale w).1 = Ok tt
  ∧ sale (committed (conn (delete_sale w).2)) !! 1 = None
  ∧ bid <$> sale seed_db !! 1 = Some "B001"
  ∧ bstock <$> book (committed (conn (delete_sale w).2)) !! "B001" = Some 50.
Proof.
  pose proof (delete_sale_removes "1" [] [] (mkConnection seed_db seed_db) []
                1 1 "Alice" "2024-01-15") as H.
  destruct H as (_ & Hok & _).
  - reflexivity.
  - lia.
  - vm_compute. reflexivity.
  - cbn zeta in Hok |- *. destruct Hok as (Hres & Hconn & _); [ reflexivity | ].
    split; [ exact Hres | ]. unfold session. rewrite Hconn. cbn.
    split; [ apply lookup_delete_eq | ].
    split; vm_compute; reflexivity.
Defined.

Lemma fits_int64_spec n :
  Py.fits_int64 n = true ↔ - 9223372036854775808 ≤ n ≤ 9223372036854775807.
Proof.
  unfold Py.fits_int64, Py.min_int64, Py.max_int64.
  change (2 ^ 63) with 9223372036854775808. lia.
Qed.

(** C10, as the code has it: an update applies no clamp.  For a selected
    sale whose book exists and whose price times quantity is not negative,
    a new discount that exceeds the price times the quantity and that
    SQLite's INTEGER can hold (at most [2^63 - 1]) is stored, and the total
    stored and committed is the negative [bprice * sqty - sdiscount], when
    the store accepts the two writes. *)
Theorem update_sale_negative_total choice d rest out c fs n sid name date sdiscount row b :
  Py.int choice = Some n →
  1 ≤ n →
  select_sales_list (working c) !! Z.to_nat (n - 1) = Some (sid, name, date) →
  Py.int d = Some sdiscount →
  sale (working c) !! sid = Some row →
  book (working c) !! bid row = Some b →
  0 ≤ bprice b * sqty row →
  bprice b * sqty row < sdiscount →
  sdiscount ≤ Py.max_int64 →
  refused_in 2 fs = false →
  let res := update_sale (mkWorld (choice :: d :: rest) out c fs) in
  let stotal := bprice b * sqty row - sdiscount in
  res.1 = Ok tt
  ∧ stotal < 0
  ∧ sale (committed (conn res.2)) !! sid
    = Some (mkSale (sdate row) (mid row) (bid row) (sqty row) sdiscount stotal).
Proof.
  intros Hchoice Hn Hsel Hd Hrow Hb Hprice Hover Hmax Hstore res stotal.
  assert (Hnn : 0 ≤ sdiscount) by lia.
  destruct (update_sale_run choice d rest out c fs n sid name date sdiscount
              row b Hchoice Hn Hsel Hd Hnn Hrow Hb) as (_ & Hok & _).
  destruct Hok as (Hres & Hconn & _); [ | exact Hstore | ].
  - unfold Py.max_int64 in Hmax. change (2 ^ 63) with 9223372036854775808 in Hmax.
    apply andb_true_intro. split; apply fits_int64_spec; lia.
  - subst res stotal. split; [ exact Hres | ]. split; [ lia | ].
    rewrite Hconn. cbn. apply lookup_insert_eq.
Qed.

Lemma update_sale_negative_total_witness :
  let w := session ["1"; "2000"] in
  (update_sale w).1 = Ok tt
  ∧ sale (committed (conn (update_sale w).2)) !! 1
    = Some (mkSale "2024-01-15" "M001" "B001" 2 2000 (-800)).
Proof.
  pose proof (update_sale_negative_total
                "1" "2000" [] [] (mkConnection seed_db seed_db) []
                1 1 "Alice" "2024-01-15" 2000
                (mkSale "2024-01-15" "M001" "B001" 2 100 1100)
                (mkBook "Python Programming" 600 50)) as H.
  destruct H as (Hres & _ & Hrow).
  - reflexivity.
  - lia.
  - vm_compute. reflexivity.
  - reflexivity.
  - vm_compute. reflexivity.
  - vm_compute. reflexivity.
  - cbn. lia.
  - cbn. lia.
  - vm_compute. discriminate.
  - reflexivity.
  - split; [ exact Hres | exact Hrow ].
Defined.

(** C10, as the claim states it, fails: the discount [2^63] is valid (an
    integer, not negative) and exceeds the price times the quantity of sale
    1, yet the update stores nothing: it ends with [OverflowError] and the
    connection as it was. *)
Lemma update_sale_discount_too_large :
  let w := session ["1"; "9223372036854775808"] in
  Py.int "9223372036854775808" = Some 9223372036854775808
  ∧ select_sales_list seed_db !! 0%nat = Some (1, "Alice", "2024-01-15")
  ∧ sale seed_db !! 1 = Some (mkSale "2024-01-15" "M001" "B001" 2 100 1100)
  ∧ bprice <$> book seed_db !! "B001" = Some 600
  ∧ (update_sale w).1 = Err OverflowError
  ∧ conn (update_sale w).2 = conn w.
Proof. repeat split; vm_compute; reflexivity. Qed.

Lemma blank_test choice : Py.strip choice = "" → (Py.strip choice =? "")%string = true.
Proof. intros ->. reflexivity. Qed.

Lemma out_of_range_test {A} (l : list A) n :
  n < 1 ∨ Z.of_nat (length l) < n →
  negb ((0 <=? n - 1) && (n - 1 <? Z.of_nat (length l))) = true.
Proof. lia. Qed.

(** C8: selection in update and in delete.  The list offered is the sales
    whose member exists, in strictly ascending order of [sid].  When it is
    empty the operation says that there is nothing to update or delete and
    asks nothing.  Otherwise it asks once: a blank answer ends the operation
    with no message and no write; an answer that is no integer, or an
    integer below 1 or above the length of the list, ends it with an error
    message and no write; an integer [n] from 1 to the length selects the
    sale at position [n] of the list, which is the one the delete removes
    and the one the update rewrites. *)
Theorem selection_behaviour lines out c fs :
  let wk := working c in
  let l := select_sales_list wk in
  let w := mkWorld lines out c fs in
  StronglySorted Z.lt (sids l)
  ∧ (∀ sid name date,
       (sid, name, date) ∈ l ↔
       ∃ row m, sale wk !! sid = Some row ∧ member wk !! mid row = Some m
                ∧ name = mname m ∧ date = sdate row)
  ∧ (l = [] →
     update_sale w = (Ok tt, mkWorld lines (out ++ [Line msg_nothing_to_update]) c fs)
     ∧ delete_sale w = (Ok tt, mkWorld lines (out ++ [Line msg_nothing_to_delete]) c fs))
  ∧ (l ≠ [] → ∀ choice rest, lines = choice :: rest →
     let asked_u := (out ++ [SalesList true l]) ++ [Prompt ask_update_choice] in
     let asked_d := (out ++ [SalesList false l]) ++ [Prompt ask_delete_choice] in
     (Py.strip choice = "" →
      update_sale w = (Ok tt, mkWorld rest asked_u c fs)
      ∧ delete_sale w = (Ok tt, mkWorld rest asked_d c fs))
     ∧ (Py.strip choice ≠ "" → Py.int choice = None →
        update_sale w
        = (Ok tt, mkWorld rest (asked_u ++ [Line msg_invalid_number]) c fs)
        ∧ delete_sale w
          = (Ok tt, mkWorld rest (asked_d ++ [Line msg_invalid_number]) c fs))
     ∧ (∀ n, Py.int choice = Some n → n < 1 ∨ Z.of_nat (length l) < n →
        update_sale w
        = (Ok tt, mkWorld rest (asked_u ++ [Line msg_invalid_option]) c fs)
        ∧ delete_sale w
          = (Ok tt, mkWorld rest (asked_d ++ [Line msg_invalid_number]) c fs))
     ∧ (∀ n, Py.int choice = Some n → 1 ≤ n ≤ Z.of_nat (length l) →
        ∃ sid name date row,
          l !! Z.to_nat (n - 1) = Some (sid, name, date)
          ∧ sale wk !! sid = Some row
          ∧ (refused_in 2 fs = false →
             sale (committed (conn (delete_sale w).2)) = delete sid (sale wk))
          ∧ (∀ d rest' sdiscount b,
               rest = d :: rest' →
               Py.int d = Some sdiscount → 0 ≤ sdiscount →
               book wk !! bid row = Some b →
               Py.fits_int64 sdiscount
               && Py.fits_int64 (bprice b * sqty row - sdiscount) = true →
               refused_in 2 fs = false →
               sale (committed (conn (update_sale w).2))
               = <[sid := mkSale (sdate row) (mid row) (bid row) (sqty row) sdiscount
                                 (bprice b * sqty row - sdiscount)]> (sale wk)))).
Proof.
  intros wk l w. subst w. split_and!.
  - apply select_sales_list_sorted.
  - intros sid name date. apply elem_of_select_sales_list.
  - intros Hl. subst l wk. destruct c as [cm wk]. cbn [working] in Hl.
    split.
    + start update_sale update_sale_body. run. by intros [= <- <-].
    + start delete_sale delete_sale_body. run. by intros [= <- <-].
  - intros Hl choice rest -> asked_u asked_d. subst asked_u asked_d.
    split_and!.
    + intros Hblank%blank_test. subst l wk. destruct c as [cm wk].
      cbn [working] in *.
      destruct (select_sales_list wk) as [|first others] eqn:Hlist; [ done | ].
      split.
      * start update_sale update_sale_body. run. by intros [= <- <-].
      * start delete_sale delete_sale_body. run. by intros [= <- <-].
    + intros Hstrip%strip_test Hint. subst l wk. destruct c as [cm wk].
      cbn [working] in *.
      destruct (select_sales_list wk) as [|first others] eqn:Hlist; [ done | ].
      split.
      * start update_sale update_sale_body. run. by intros [= <- <-].
      * start delete_sale delete_sale_body. run. by intros [= <- <-].
    + intros n Hint Hrange%out_of_range_test.
      pose proof (strip_test _ (int_not_blank _ _ Hint)) as Hstrip.
      subst l wk. destruct c as [cm wk]. cbn [working] in *.
      destruct (select_sales_list wk) as [|first others] eqn:Hlist; [ done | ].
      cbn in Hrange.
      split.
      * start update_sale update_sale_body. run. by intros [= <- <-].
      * start delete_sale delete_sale_body. run. by intros [= <- <-].
    + intros n Hint [Hlo Hhi].
      destruct (lookup_lt_is_Some_2 l (Z.to_nat (n - 1))) as [[[sid name] date] Hsel];
        [ lia | ].
      destruct (selected_sale _ _ _ _ _ Hsel) as [row Hrow].
      exists sid, name, date, row. split_and!; [ done | done | | ].
      * intros Hstore.
        destruct (delete_sale_run choice rest out c fs n sid name date
                    Hint Hlo Hsel) as (_ & Hok).
        destruct (Hok Hstore) as (_ & -> & _). reflexivity.
      * intros d rest' sdiscount b -> Hd Hnn Hb Hfits Hstore.
        destruct (update_sale_run choice d rest' out c fs n sid name date
                    sdiscount row b Hint Hlo Hsel Hd Hnn Hrow Hb) as (_ & Hok & _).
        destruct (Hok Hfits Hstore) as (_ & -> & _). reflexivity.
Qed.

Lemma selection_behaviour_witness :
  select_sales_list seed_db !! 1%nat = Some (2, "Bob", "2024-01-16")
  ∧ sale (committed (conn (delete_sale (session ["2"])).2)) = delete 2 (sale seed_db)
  ∧ update_sale (session ["0"])
    = (Ok tt, mkWorld []
                ([SalesList true (select_sales_list seed_db); Prompt ask_update_choice]
                 ++ [Line msg_invalid_option])
                (mkConnection seed_db seed_db) []).
Proof.
  destruct (selection_behaviour ["2"] [] (mkConnection seed_db seed_db) [])
    as (_ & _ & _ & Hsel).
  destruct (selection_behaviour ["0"] [] (mkConnection seed_db seed_db) [])
    as (_ & _ & _ & Hsel0).
  cbn zeta in Hsel, Hsel0.
  assert (Hne : select_sales_list seed_db ≠ []) by (vm_compute; discriminate).
  destruct (Hsel Hne "2" [] eq_refl) as (_ & _ & _ & Hin).
  destruct (Hsel0 Hne "0" [] eq_refl) as (_ & _ & Hout & _).
  destruct (Hin 2 eq_refl) as (sid & name & date & row & Hrow & _ & Hdel & _).
  { vm_compute. split; discriminate. }
  destruct (Hout 0 eq_refl) as (Hupd & _).
  { left. lia. }
  split; [ vm_compute; reflexivity | ].
  split; [ | exact Hupd ].
  assert (Hsid : sid = 2).
  { cbn in Hrow. vm_compute in Hrow. by injection Hrow as -> _ _. }
  subst sid. apply Hdel. reflexivity.
Defined.


Example selection_cancelled :
  update_sale (session [""; "50"])
  = (Ok tt, mkWorld ["50"]
              [SalesList true (select_sales_list seed_db); Prompt ask_update_choice]
              (mkConnection seed_db seed_db) []).
Proof. vm_compute. reflexivity. Qed.

Example selection_out_of_range :
  delete_sale (session ["5"])
  = (Ok tt, mkWorld []
              [SalesList false (select_sales_list seed_db); Prompt ask_delete_choice;
               Line msg_invalid_number]
              (mkConnection seed_db seed_db) []).
Proof. vm_compute. reflexivity. Qed.

Example selection_third :
  sids (select_sales_list seed_db) = [1; 2; 3; 4]
  ∧ dom (sale (committed (conn (delete_sale (session ["3"])).2))) = {[1; 2; 4]}.
Proof. split; vm_compute; reflexivity. Qed.

(** ** Errors and the end of the process *)

(** [add_sale] lets no exception out: its outer [except Exception] turns
    each one into a failure message. *)
Lemma add_sale_never_raises w : ∃ r, (add_sale w).1 = Ok r.
Proof.
  unfold add_sale, add_sale_body, def, try_except.
  match goal with
  | |- context [let (_, _) := ?body w in _] =>
      destruct (body w) as [[a|r|e] w']
  end; cbn; eauto.
Qed.

(** No operation gives lines back to the console. *)
Lemma add_sale_stdin w : (length (stdin (add_sale w).2) ≤ length (stdin w))%nat.
Proof.
  destruct w as [lines out c fs]. start add_sale add_sale_body. run.
  all: intros [= <- <-]; cbn; lia.
Qed.

Lemma update_sale_stdin w : (length (stdin (update_sale w).2) ≤ length (stdin w))%nat.
Proof.
  destruct w as [lines out c fs]. start update_sale update_sale_body. run.
  all: intros [= <- <-]; cbn; lia.
Qed.

Lemma delete_sale_stdin w : (length (stdin (delete_sale w).2) ≤ length (stdin w))%nat.
Proof.
  destruct w as [lines out c fs]. start delete_sale delete_sale_body. run.
  all: intros [= <- <-]; cbn; lia.
Qed.

Lemma show_sales_stdin w : (length (stdin (show_sales w).2) ≤ length (stdin w))%nat.
Proof.
  destruct w as [lines out c fs]. start show_sales show_sales_body. run.
  all: intros [= <- <-]; cbn; lia.
Qed.

(** A turn that goes on has read at least the choice. *)
Lemma menu_turn_reads w w' :
  menu_turn w = (Ok false, w') → (length (stdin w') < length (stdin w))%nat.
Proof.
  destruct w as [lines out c fs].
  unfold menu_turn, menu_turn_body. exec.
  destruct lines as [|choice lines]; exec; [ done | ].
  repeat (split_stuck; exec).
  - meet add_sale add_sale_stdin; exec; menu_handler.
    all: try destruct a; exec.
    all: intros [= <-]; cbn; lia.
  - meet show_sales show_sales_stdin; exec; menu_handler.
    all: intros [= <-]; cbn; lia.
  - meet update_sale update_sale_stdin; exec; menu_handler.
    all: intros [= <-]; cbn; lia.
  - meet delete_sale delete_sale_stdin; exec; menu_handler.
    all: intros [= <-]; cbn; lia.
  - done.
  - intros [= <-]; cbn; lia.
Qed.

(** The loop ends within one turn more than there are lines to read. *)
Lemma main_loop_total fuel w :
  (length (stdin w) < fuel)%nat → is_Some (main_loop fuel w).
Proof.
  revert w. induction fuel as [|fuel IH]; intros w Hlen; [ lia | ].
  cbn. destruct (menu_turn w) as [[[|]|e] w'] eqn:E; [ done | | done ].
  apply IH. apply menu_turn_reads in E. lia.
Qed.

Lemma main_total disk lines answers : is_Some (main disk lines answers).
Proof.
  unfold main. destruct (initialize_db disk) as [[err|] db]; [ done | ].
  apply main_loop_total. cbn. lia.
Qed.

(** C9, the code at the failing input: in the update, a discount that
    SQLite's INTEGER cannot hold raises [OverflowError], which neither
    [update_sale] nor the menu loop catches, and the process ends with a
    traceback, not by the exit choice of the menu.  So does the end of the
    input at a prompt of the delete.  The same discount typed in a create is
    reported by [add_sale] as a failure, which lets no exception out, and
    the menu goes on to the exit choice. *)
Theorem update_sale_error_ends_process :
  fst <$> main empty_db ["3"; "1"; "9223372036854775808"; "5"] []
  = Some (Traceback OverflowError)
  ∧ fst <$> main empty_db ["4"] [] = Some (Traceback EOFError)
  ∧ fst <$> main empty_db
              ["1"; "2024-01-01"; "M001"; "B001"; "1"; "9223372036854775808"; "5"] []
    = Some ExitNormally
  ∧ (add_sale (session ["2024-01-01"; "M001"; "B001"; "1"; "9223372036854775808"])).1
    = Ok (false, msg_system_error OverflowError)
  ∧ (∀ w, ∃ r, (add_sale w).1 = Ok r).
Proof.
  split_and!; [ vm_compute; reflexivity .. | ].
  apply add_sale_never_raises.
Qed.

(** ** Every way an operation can end *)

Lemma add_sale_turn w : turn_conn (conn w) (conn (add_sale w).2).
Proof.
  destruct w as [lines out [cm wk] fs]. cbn [conn].
  start add_sale add_sale_body. run.
  all: intros [= <- <-]; cbn.
  all: unfold turn_conn; cbn.
  all: try (by left).
  all: try (by right; left).
  all: right; right; eexists; split; [ | right; reflexivity ].
  all: match goal with
       | Hm : member ?db !! _ = Some ?m, Hb : book ?db !! _ = Some ?b |- _ =>
           apply (write_sold db (mkSale _ _ _ _ _ _) m b); cbn; first [ done | lia ]
       end.
Qed.

Lemma listed_sale db (l : list list_row) i sid name date :
  select_sales_list db = l → l !! i = Some (sid, name, date) →
  ∃ row m, sale db !! sid = Some row ∧ member db !! mid row = Some m.
Proof.
  intros <- H. apply list_elem_of_lookup_2, elem_of_select_sales_list in H.
  destruct H as (row & m & Hrow & Hm & _). eauto.
Qed.

Lemma update_sale_turn w : turn_conn (conn w) (conn (update_sale w).2).
Proof.
  destruct w as [lines out [cm wk] fs]. cbn [conn].
  start update_sale update_sale_body. run.
  all: intros [= <- <-]; cbn.
  all: unfold turn_conn; cbn.
  all: try (by left).
  all: right; right.
  all: match goal with
       | Hl : select_sales_list ?db = ?l, Hsel : ?l !! _ = Some (?sid, _, _),
         Hrow : sale ?db !! ?sid = Some ?row, Hb : book ?db !! _ = Some ?b |- _ =>
           destruct (listed_sale _ _ _ _ _ _ Hl Hsel) as (row' & m & Hrow' & Hm);
           rewrite Hrow in Hrow'; injection Hrow' as <-;
           rewrite (alter_lookup_insert _ _ _ _ Hrow);
           eexists; split; cycle 1;
           [ first [ left; reflexivity | right; reflexivity ]
           | apply (write_rewritten db sid row m b _ Hrow Hm Hb); lia ]
       end.
Qed.

Lemma delete_sale_turn w : turn_conn (conn w) (conn (delete_sale w).2).
Proof.
  destruct w as [lines out [cm wk] fs]. cbn [conn].
  start delete_sale delete_sale_body. run.
  all: intros [= <- <-]; cbn.
  all: unfold turn_conn; cbn.
  all: try (by left).
  all: right; right.
  all: match goal with
       | Hl : select_sales_list ?db = ?l, Hsel : ?l !! _ = Some (?sid, _, _) |- _ =>
           destruct (listed_sale _ _ _ _ _ _ Hl Hsel) as (row & m & Hrow & Hm);
           eexists; split; cycle 1;
           [ first [ left; reflexivity | right; reflexivity ]
           | apply (write_removed db sid row m Hrow Hm) ]
       end.
Qed.

Lemma turn_conn_refl c : turn_conn c c.
Proof. by left. Qed.

Lemma menu_turn_turn w : turn_conn (conn w) (conn (menu_turn w).2).
Proof.
  destruct w as [lines out c fs]. cbn [conn].
  start menu_turn menu_turn_body. exec.
  destruct lines as [|choice lines]; exec; [ intros [= <- <-]; by left | ].
  repeat (split_stuck; exec).
  - meet add_sale add_sale_turn; exec; menu_handler.
    all: try destruct a; exec.
    all: intros [= <- <-]; cbn; auto.
  - meet show_sales show_sales_conn; exec; menu_handler.
    all: intros [= <- <-]; cbn; subst; by left.
  - meet update_sale update_sale_turn; exec; menu_handler.
    all: intros [= <- <-]; cbn; auto.
  - meet delete_sale delete_sale_turn; exec; menu_handler.
    all: intros [= <- <-]; cbn; auto.
  - intros [= <- <-]; by left.
  - intros [= <- <-]; by left.
Qed.

(** ** What the writes keep *)

Section Invariant.
Variable P : DB → Prop.
Hypothesis write_keeps : ∀ db db', P db → write db db' → P db'.

Lemma turn_conn_both c c' : turn_conn c c' → both P c → both P c'.
Proof using write_keeps.
  intros [->|[->|(db' & Hw & [->| ->])]] [Hc Hwk]; split; cbn; eauto.
Qed.

Lemma main_loop_both fuel w e w' :
  both P (conn w) → main_loop fuel w = Some (e, w') → both P (conn w').
Proof using write_keeps.
  revert w. induction fuel as [|fuel IH]; intros w Hc; [ done | ].
  cbn. pose proof (turn_conn_both _ _ (menu_turn_turn w) Hc) as Hturn.
  destruct (menu_turn w) as [[[|]|err] w1]; cbn in Hturn.
  - by intros [= <- <-].
  - by apply IH.
  - by intros [= <- <-].
Qed.
End Invariant.

Section Lineage.
Variable R : DB → DB → Prop.
Context `{!Reflexive R, !Transitive R}.
Hypothesis write_in : ∀ db db', write db db' → R db db'.

Lemma turn_conn_from c c' : turn_conn c c' → conn_from R c c'.
Proof using write_in Reflexive0.
  unfold conn_from.
  intros [->|[->|(db' & Hw & [->| ->])]]; cbn; split; auto.
Qed.

Lemma conn_from_trans c1 c2 c3 :
  conn_from R c1 c2 → conn_from R c2 c3 → conn_from R c1 c3.
Proof using Transitive0.
  unfold conn_from. intros [H1 H2] [H3 H4].
  split.
  - destruct H3 as [H3|H3]; [ destruct H1 | destruct H2 ]; eauto.
  - destruct H4 as [H4|H4]; [ destruct H1 | destruct H2 ]; eauto.
Qed.

Lemma main_loop_from fuel w e w' :
  main_loop fuel w = Some (e, w') → conn_from R (conn w) (conn w').
Proof using write_in Reflexive0 Transitive0.
  revert w. induction fuel as [|fuel IH]; intros w; [ done | ].
  cbn. pose proof (turn_conn_from _ _ (menu_turn_turn w)) as Hturn.
  destruct (menu_turn w) as [[[|]|err] w1]; cbn in Hturn.
  - by intros [= <- <-].
  - intros H. eapply conn_from_trans; eauto.
  - by intros [= <- <-].
Qed.
End Lineage.

Lemma catalogue_le_same db db' :
  member db' = member db → book db' = book db → catalogue_le db db'.
Proof.
  intros Hm Hb. split; [ done | ]. intros k. rewrite Hb.
  destruct (book db !! k); constructor. repeat split; lia.
Qed.

#[local] Instance catalogue_le_refl : Reflexive catalogue_le.
Proof. intros db. by apply catalogue_le_same. Qed.

#[local] Instance catalogue_le_trans : Transitive catalogue_le.
Proof.
  intros db1 db2 db3 [Hm1 Hb1] [Hm2 Hb2]. split; [ congruence | ].
  intros k. specialize (Hb1 k). specialize (Hb2 k).
  destruct Hb1 as [b1 b2 (Ht1 & Hp1 & Hs1)|]; inversion Hb2 as [b2' b3 (Ht2 & Hp2 & Hs2)|];
    subst; constructor.
  repeat split; [ congruence | congruence | lia ].
Qed.

Lemma write_catalogue_le db db' : write db db' → catalogue_le db db'.
Proof.
  intros [row m b Hm Hb Hq Hd Ht Hk|sid row m b d Hrow Hm Hb Hd|sid row m Hrow Hm].
  - split; [ done | ]. intros k. cbn.
    destruct (decide (bid row = k)) as [<-|Hne].
    + rewrite lookup_alter_eq, Hb. constructor. cbn. repeat split; lia.
    + rewrite lookup_alter_ne by done.
      destruct (book db !! k); constructor. repeat split; lia.
  - by apply catalogue_le_same.
  - by apply catalogue_le_same.
Qed.

Lemma catalogue_le_seed_prices db db' :
  catalogue_le db db' → seed_prices_kept db → seed_prices_kept db'.
Proof.
  intros [_ Hb] Hall. unfold seed_prices_kept.
  eapply Forall_impl; [ exact Hall | ].
  intros [k p] H b' Hb'. cbn in *. specialize (Hb k). rewrite Hb' in Hb.
  inversion Hb as [b0 b1 (_ & Hp & _) Hb0|]; subst. rewrite Hp. by apply H.
Qed.

(** A row that is sound stays sound where its member is kept and its book
    keeps its price. *)
Lemma sale_ok_le db db' s :
  catalogue_le db db' → sale_ok db s = true → sale_ok db' s = true.
Proof.
  intros [Hm Hb]. unfold sale_ok. rewrite Hm. specialize (Hb (bid s)).
  destruct (member db !! mid s); [ | done ].
  destruct Hb as [b b' (_ & -> & _)|]; done.
Qed.

Lemma sale_ok_intro db s m b :
  member db !! mid s = Some m → book db !! bid s = Some b →
  0 < sqty s → 0 ≤ sdiscount s → stotal s = bprice b * sqty s - sdiscount s →
  sale_ok db s = true.
Proof. intros Hm Hb Hq Hd Ht. unfold sale_ok. rewrite Hm, Hb. lia. Qed.

Lemma sale_ok_elim db s :
  sale_ok db s = true →
  ∃ m b, member db !! mid s = Some m ∧ book db !! bid s = Some b
         ∧ 0 < sqty s ∧ 0 ≤ sdiscount s
         ∧ stotal s = bprice b * sqty s - sdiscount s.
Proof.
  unfold sale_ok. destruct (member db !! mid s) as [m|]; [ | done ].
  destruct (book db !! bid s) as [b|]; [ | done ].
  intros H. exists m, b. repeat split; lia.
Qed.

Lemma write_ledger_ok db db' : ledger_ok db → write db db' → ledger_ok db'.
Proof.
  intros Hdb Hw. pose proof (write_catalogue_le _ _ Hw) as Hle.
  assert (Hold : ∀ sid s, sale db !! sid = Some s → sale_ok db' s = true).
  { intros sid s Hs. eapply sale_ok_le; [ done | ]. exact (Hdb _ _ Hs). }
  destruct Hw as [row m b Hm Hb Hq Hd Ht Hk|sid row m b d Hrow Hm Hb Hd|sid row m Hrow Hm];
    unfold ledger_ok; cbn.
  - apply map_Forall_insert_2; [ | intros sid s Hs; eauto ].
    eapply sale_ok_le; [ done | ]. eapply sale_ok_intro; eauto; lia.
  - apply map_Forall_insert_2; [ | intros i s Hs; eauto ].
    destruct (sale_ok_elim _ _ (Hdb _ _ Hrow)) as (_ & _ & _ & _ & Hq & _).
    eapply sale_ok_intro; eauto.
  - intros i s Hs. apply lookup_delete_Some in Hs as [_ Hs]. eauto.
Qed.

Lemma write_sound db db' : sound db → write db db' → sound db'.
Proof.
  intros [Hl Hp] Hw. split.
  - by eapply write_ledger_ok.
  - eapply catalogue_le_seed_prices; [ | done ]. by apply write_catalogue_le.
Qed.

Lemma write_stock_nonneg db db' : stock_nonneg db → write db db' → stock_nonneg db'.
Proof.
  intros Hdb [row m b Hm Hb Hq Hd Ht Hk|sid row m b d Hrow Hm Hb Hd|sid row m Hrow Hm].
  - eapply stock_nonneg_sold; eauto; lia.
  - done.
  - done.
Qed.

Lemma write_keys_bounded db db' : keys_bounded db → write db db' → keys_bounded db'.
Proof.
  intros Hdb [row m b Hm Hb Hq Hd Ht Hk|sid row m b d Hrow Hm Hb Hd|sid row m Hrow Hm];
    unfold keys_bounded; cbn.
  - assert (Hseq : 0 ≤ sale_seq db → sale_seq db < next_sid db)
      by (unfold next_sid; lia).
    assert (Hpos : 1 ≤ next_sid db).
    { unfold next_sid, max_sid.
      assert (0 ≤ max_sid db); [ | unfold max_sid in *; lia ].
      unfold max_sid. apply (map_fold_weak_ind (λ r _, 0 ≤ r)); [ done | ].
      intros; lia. }
    apply map_Forall_insert_2; [ lia | ].
    intros i s Hs. specialize (Hdb i s Hs). cbn in Hdb.
    unfold next_sid. lia.
  - apply map_Forall_insert_2; [ exact (Hdb _ _ Hrow) | exact Hdb ].
  - intros i s Hs. apply lookup_delete_Some in Hs as [_ Hs]. exact (Hdb _ _ Hs).
Qed.

Lemma write_consistent db db' : consistent db → write db db' → consistent db'.
Proof.
  intros (Hs & Hn & Hk) Hw. split_and!.
  - by eapply write_sound.
  - by eapply write_stock_nonneg.
  - by eapply write_keys_bounded.
Qed.

(** ** Start-up keeps what is on disk *)

Lemma insert_or_ignore_kept {A} key (row : A) t k x :
  t !! k = Some x → insert_or_ignore key row t !! k = Some x.
Proof.
  intros Hk. unfold insert_or_ignore. destruct (t !! key) eqn:E; [ done | ].
  rewrite lookup_insert_ne; [ done | ]. intros ->. congruence.
Qed.

Lemma insert_or_ignore_lookup {A} key (row : A) t :
  insert_or_ignore key row t !! key = Some (default row (t !! key)).
Proof.
  unfold insert_or_ignore. destruct (t !! key) eqn:E; cbn; [ done | ].
  by rewrite lookup_insert_eq.
Qed.

(** A row that is sound stays sound when rows are added to [member] and
    [book]. *)
Lemma sale_ok_grows db db' s :
  (∀ k m, member db !! k = Some m → member db' !! k = Some m) →
  (∀ k b, book db !! k = Some b → book db' !! k = Some b) →
  sale_ok db s = true → sale_ok db' s = true.
Proof.
  intros Hm Hb H. apply sale_ok_elim in H as (m & b & Hm' & Hb' & Hq & Hd & Ht).
  eapply sale_ok_intro; eauto.
Qed.

Lemma seed_member_consistent key row db db' :
  consistent db → seed_member key row db = inr db' → consistent db'.
Proof.
  intros ((Hl & Hp) & Hn & Hk) [= <-].
  refine (conj (conj _ Hp) (conj Hn Hk)).
  intros sid s Hs. cbn in Hs. eapply sale_ok_grows; [ | | exact (Hl _ _ Hs) ]; cbn.
  - intros k m. apply insert_or_ignore_kept.
  - done.
Qed.

Lemma seed_book_consistent key row db db' :
  (key, bprice row) ∈ seed_prices → 0 ≤ bstock row →
  consistent db → seed_book key row db = inr db' → consistent db'.
Proof.
  intros Hkey Hstock ((Hl & Hp) & Hn & Hk) [= <-].
  refine (conj (conj _ _) (conj _ Hk)).
  - intros sid s Hs. cbn in Hs. eapply sale_ok_grows; [ | | exact (Hl _ _ Hs) ]; cbn.
    + done.
    + intros k b. apply insert_or_ignore_kept.
  - unfold seed_prices_kept in *. rewrite Forall_forall in Hp |- *.
    intros [k p] Hin b. cbn. unfold insert_or_ignore.
    destruct (book db !! key) eqn:E; [ by apply (Hp (k, p)) | ].
    destruct (decide (key = k)) as [<-|Hne].
    + rewrite lookup_insert_eq. intros [= <-].
      revert Hkey Hin. unfold seed_prices. rewrite !elem_of_cons, !elem_of_nil.
      intros [H1|[H1|[H1|[]]]] [H2|[H2|[H2|[]]]]; congruence.
    + rewrite lookup_insert_ne by done. by apply (Hp (k, p)).
  - by apply insert_or_ignore_Forall.
Qed.

Lemma insert_sale_unless_consistent n row p db db' :
  is_Some (member db !! mid row) → is_Some (book db !! bid row) →
  (bid row, p) ∈ seed_prices →
  0 < sqty row → 0 ≤ sdiscount row → stotal row = p * sqty row - sdiscount row →
  consistent db → insert_sale_unless n row db = inr db' →
  consistent db'
  ∧ member db' = member db ∧ book db' = book db.
Proof.
  intros [m Hm] [b Hb] Hin Hq Hd Ht ((Hl & Hp) & Hn & Hk).
  unfold insert_sale_unless, insert_sale.
  destruct (sale db !! n); [ by intros [= <-] | ].
  destruct (Py.fits_int64 (next_sid db)) eqn:Hfits; [ | done ].
  intros [= <-]. cbn. split; [ | done ].
  refine (conj (conj _ Hp) (conj Hn _)).
  - apply map_Forall_insert_2.
    + eapply (sale_ok_intro _ _ m b); cbn; try done.
      unfold seed_prices_kept in Hp. rewrite Forall_forall in Hp.
      by rewrite (Hp _ Hin b Hb).
    + intros i s Hs. eapply sale_ok_grows; [ | | exact (Hl _ _ Hs) ]; done.
  - unfold keys_bounded in *. cbn.
    assert (0 ≤ max_sid db).
    { unfold max_sid. apply (map_fold_weak_ind (λ r _, 0 ≤ r)); [ done | ].
      intros; lia. }
    apply map_Forall_insert_2; [ unfold next_sid; lia | ].
    intros i s Hs. specialize (Hk i s Hs). cbn in Hk. unfold next_sid. lia.
Qed.

Lemma insert_or_ignore_is_Some {A} key (row : A) t k :
  k = key ∨ is_Some (t !! k) → is_Some (insert_or_ignore key row t !! k).
Proof.
  intros [->|[x Hx]].
  - rewrite insert_or_ignore_lookup. eauto.
  - erewrite insert_or_ignore_kept; eauto.
Qed.

Ltac in_seed_prices :=
  unfold seed_prices;
  solve [ repeat first [ apply list_elem_of_here | apply list_elem_of_further ] ].

Lemma executescript_cons_ok stmt rest db db' :
  stmt db = inr db' → executescript (stmt :: rest) db = executescript rest db'.
Proof. intros H. cbn. by rewrite H. Qed.

Lemma initialize_db_consistent db : consistent db → consistent (initialize_db db).2.
Proof.
  intros Hdb. unfold initialize_db, seed_script.
  set (P := λ db, consistent db
                  ∧ Forall (λ k, is_Some (member db !! k)) ["M001"; "M002"; "M003"]
                  ∧ Forall (λ k, is_Some (book db !! k)) ["B001"; "B002"; "B003"]).
  repeat match goal with
         | H : consistent ?d |- context [executescript (seed_member ?k ?r :: _) ?d] =>
             pose proof (seed_member_consistent k r d _ H eq_refl);
             erewrite executescript_cons_ok by reflexivity; clear H
         | H : consistent ?d |- context [executescript (seed_book ?k ?r :: _) ?d] =>
             assert (consistent (mkDB (member d) (insert_or_ignore k r (book d))
                                      (sale d) (sale_seq d)))
               by (apply (seed_book_consistent k r d _); 
                   [ in_seed_prices | cbn; lia | exact H | reflexivity ]);
             erewrite executescript_cons_ok by reflexivity; clear H
         end.
  match goal with
  | |- consistent (executescript ?script ?db6).2 =>
      enough (HP : P (executescript script db6).2) by apply HP;
      apply executescript_keeps
  end.
  - repeat apply Forall_cons_2; [ .. | apply Forall_nil_2 ].
    all: intros db0 db1 (Hc0 & Hms & Hbs) Hrun.
    all: pose proof Hms as Hms'; pose proof Hbs as Hbs'.
    all: rewrite !Forall_cons in Hms', Hbs'.
    all: destruct Hms' as (Hm1 & Hm2 & Hm3 & _), Hbs' as (Hb1 & Hb2 & Hb3 & _).
    all: first
           [ eapply (insert_sale_unless_consistent _ _ 600) in Hrun as (H1 & Hm & Hb);
             [ | first [ assumption | in_seed_prices | (cbn; lia) ] .. ]
           | eapply (insert_sale_unless_consistent _ _ 800) in Hrun as (H1 & Hm & Hb);
             [ | first [ assumption | in_seed_prices | (cbn; lia) ] .. ]
           | eapply (insert_sale_unless_consistent _ _ 1200) in Hrun as (H1 & Hm & Hb);
             [ | first [ assumption | in_seed_prices | (cbn; lia) ] .. ] ].
    all: subst P; cbn beta; rewrite Hm, Hb; done.
  - subst P. cbn beta. split_and!.
    + assumption.
    + repeat apply Forall_cons_2; [ .. | apply Forall_nil_2 ]; cbn.
      all: repeat (apply insert_or_ignore_is_Some; first [ by left | right ]).
    + repeat apply Forall_cons_2; [ .. | apply Forall_nil_2 ]; cbn.
      all: repeat (apply insert_or_ignore_is_Some; first [ by left | right ]).
Qed.

Lemma empty_db_consistent : consistent empty_db.
Proof.
  split_and!.
  - split; [ apply map_Forall_empty | ].
    unfold seed_prices_kept. apply Forall_forall. intros kp _ b Hb.
    cbn in Hb. by rewrite lookup_empty in Hb.
  - apply map_Forall_empty.
  - apply map_Forall_empty.
Qed.

Lemma main_consistent disk lines answers e w :
  consistent disk → main disk lines answers = Some (e, w) →
  both consistent (conn w).
Proof.
  intros Hdisk. unfold main.
  pose proof (initialize_db_consistent _ Hdisk) as Hinit.
  destruct (initialize_db disk) as [[err|] db]; cbn in Hinit.
  - by intros [= <- <-].
  - apply main_loop_both; [ apply write_consistent | done ].
Qed.

Lemma on_disk_consistent db : on_disk db → consistent db.
Proof.
  induction 1 as [|disk lines answers e w _ IH Hrun].
  - apply empty_db_consistent.
  - apply (main_consistent _ _ _ _ _ IH Hrun).
Qed.

(** ** The exceptions an operation lets out *)

Lemma in_range_lookup {A} (l : list A) i :
  negb ((0 <=? i) && (i <? Z.of_nat (length l))) = false → is_Some (l !! Z.to_nat i).
Proof. intros H. apply lookup_lt_is_Some_2. lia. Qed.

Lemma update_sale_errors w :
  match (update_sale w).1 with
  | Ok _ => True
  | Err e =>
      e = EOFError ∨ e = OverflowError ∨ (∃ err, e = Sqlite err)
      ∨ (e = TypeError
         ∧ ∃ sid row, sale (working (conn w)) !! sid = Some row
                      ∧ book (working (conn w)) !! bid row = None)
  end.
Proof.
  destruct w as [lines out [cm wk] fs]. cbn [conn working].
  start update_sale update_sale_body. run.
  all: intros [= <- <-]; cbn; eauto 10.
  all: exfalso.
  all: match goal with
       | Hr : negb _ = false, Hsel : ?l !! Z.to_nat _ = None |- _ =>
           apply (in_range_lookup l) in Hr as [? Hr]; congruence
       | Hl : select_sales_list ?db = ?l, Hsel : ?l !! _ = Some (?sid, _, _),
         Hrow : sale ?db !! ?sid = None |- _ =>
           destruct (listed_sale _ _ _ _ _ _ Hl Hsel) as (row & m & Hrow' & Hm);
           congruence
       end.
Qed.

Lemma delete_sale_errors w :
  match (delete_sale w).1 with
  | Ok _ => True
  | Err e => e = EOFError ∨ ∃ err, e = Sqlite err
  end.
Proof.
  destruct w as [lines out [cm wk] fs]. cbn [conn working].
  start delete_sale delete_sale_body. run.
  all: intros [= <- <-]; cbn; eauto 10.
  all: exfalso.
  all: match goal with
       | Hr : negb _ = false, Hsel : ?l !! Z.to_nat _ = None |- _ =>
           apply (in_range_lookup l) in Hr as [? Hr]; congruence
       end.
Qed.

Lemma show_sales_errors w :
  match (show_sales w).1 with
  | Ok _ => True
  | Err e => ∃ err, e = Sqlite err
  end.
Proof.
  destruct w as [lines out c fs]. start show_sales show_sales_body. run.
  all: intros [= <- <-]; cbn; eauto.
Qed.

(** The menu loop takes [ValueError] and the errors of SQLite; what is left
    ends the process. *)
Lemma menu_turn_errors w :
  match (menu_turn w).1 with
  | Ok _ => True
  | Err e =>
      e = EOFError ∨ e = OverflowError
      ∨ (e = TypeError ∧ ¬ ledger_ok (working (conn w)))
  end.
Proof.
  destruct w as [lines out c fs]. cbn [conn].
  start menu_turn menu_turn_body. exec.
  destruct lines as [|choice lines]; exec; [ intros [= <- <-]; auto | ].
  repeat (split_stuck; exec).
  - match goal with
    | |- context [add_sale ?w0] =>
        destruct (add_sale_never_raises w0) as [[ok msg] Hok];
        destruct (add_sale w0) as [r1 [? ? ? ?]]
    end.
    cbn in Hok. subst r1. exec.
    by intros [= <- <-].
  - meet show_sales show_sales_errors; exec; menu_handler.
    all: intros [= <- <-]; cbn; auto.
    all: destruct Hop as [? ?]; done.
  - meet update_sale update_sale_errors; exec; menu_handler.
    all: intros [= <- <-]; cbn; auto.
    all: destruct Hop as [?|[?|[[? ?]|[? (sid & row & Hrow & Hb)]]]]; try done.
    right; right. split; [ done | ]. intros Hl.
    destruct (sale_ok_elim _ _ (Hl _ _ Hrow)) as (? & ? & ? & ? & _). congruence.
  - meet delete_sale delete_sale_errors; exec; menu_handler.
    all: intros [= <- <-]; cbn; auto.
    all: destruct Hop as [?|[? ?]]; done.
  - by intros [= <- <-].
  - by intros [= <- <-].
Qed.

Lemma main_loop_exits fuel w e w' :
  both consistent (conn w) → main_loop fuel w = Some (e, w') →
  e = ExitNormally ∨ e = Traceback EOFError ∨ e = Traceback OverflowError.
Proof.
  revert w. induction fuel as [|fuel IH]; intros w Hc; [ done | ].
  cbn. pose proof (turn_conn_both _ write_consistent _ _ (menu_turn_turn w) Hc) as Hturn.
  pose proof (menu_turn_errors w) as Herr.
  destruct (menu_turn w) as [[[|]|err] w1]; cbn in Hturn, Herr.
  - intros [= <- <-]. auto.
  - by apply IH.
  - intros [= <- <-]. destruct Herr as [->|[->|[_ Hbad]]]; auto.
    exfalso. apply Hbad, Hc.
Qed.

(** ** The listing and the report *)

(** A row of the report is a sale of the table whose member and book
    exist, with the name, the title and the price they have now. *)
Lemma elem_of_select_sales_report db r :
  r ∈ select_sales_report db ↔
  ∃ row m b, sale db !! r_sid r = Some row ∧ member db !! mid row = Some m
             ∧ book db !! bid row = Some b
             ∧ r = mkReportRow (r_sid r) (sdate row) (mname m) (btitle b) (bprice b)
                               (sqty row) (sdiscount row) (stotal row).
Proof.
  unfold select_sales_report. rewrite list_elem_of_omap. split.
  - intros [[sid row] [Hin Hf]]. apply elem_of_sales_by_sid in Hin.
    cbn in Hf. destruct (member db !! mid row) as [m|] eqn:Hm; [ | done ].
    cbn in Hf. destruct (book db !! bid row) as [b|] eqn:Hb; [ | done ].
    cbn in Hf. injection Hf as <-. cbn. eauto 10.
  - intros (row & m & b & Hrow & Hm & Hb & Hr). exists (r_sid r, row). split.
    + by apply elem_of_sales_by_sid.
    + cbn. rewrite Hm. cbn. rewrite Hb. cbn. by rewrite Hr.
Qed.

(** The keys of a join are keys of the table, in its order. *)
Lemma omap_keys_sorted {A} (f : Z * Sale → option A) (key : A → Z) l :
  (∀ x y, f x = Some y → key y = x.1) →
  StronglySorted Z.lt l.*1 → StronglySorted Z.lt (key <$> omap f l).
Proof.
  intros Hkey. induction l as [|x l IH]; intros Hs; [ constructor | ].
  cbn in Hs. apply StronglySorted_inv in Hs as [Hs Hall].
  cbn. destruct (f x) as [y|] eqn:Hy; cbn; [ | by apply IH ].
  constructor; [ by apply IH | ].
  apply Forall_fmap, Forall_forall. intros y' Hin.
  apply list_elem_of_omap in Hin as [x' [Hin Hf]]. cbn.
  rewrite (Hkey _ _ Hy), (Hkey _ _ Hf).
  rewrite Forall_forall in Hall. apply Hall. by apply list_elem_of_fmap_2.
Qed.

Lemma omap_keys_all {A} (f : Z * Sale → option A) (key : A → Z) l :
  (∀ x y, f x = Some y → key y = x.1) →
  Forall (λ x, is_Some (f x)) l → key <$> omap f l = l.*1.
Proof.
  intros Hkey. induction 1 as [|x l [y Hy] _ IH]; [ done | ].
  cbn. rewrite Hy. cbn. by rewrite IH, (Hkey _ _ Hy).
Qed.

Lemma select_sales_report_sorted db :
  StronglySorted Z.lt (report_sids (select_sales_report db)).
Proof.
  apply omap_keys_sorted; [ | apply sales_by_sid_sorted ].
  intros [sid row] r Hf. cbn in *.
  destruct (member db !! mid row); [ | done ]. cbn in Hf.
  destruct (book db !! bid row); [ | done ]. cbn in Hf. by injection Hf as <-.
Qed.

(** In a sound ledger the report has every sale. *)
Lemma select_sales_report_all db :
  ledger_ok db → report_sids (select_sales_report db) = (sales_by_sid db).*1.
Proof.
  intros Hdb. apply omap_keys_all.
  - intros [sid row] r Hf. cbn in *.
    destruct (member db !! mid row); [ | done ]. cbn in Hf.
    destruct (book db !! bid row); [ | done ]. cbn in Hf. by injection Hf as <-.
  - apply Forall_forall. intros [sid row] Hin. apply elem_of_sales_by_sid in Hin.
    destruct (sale_ok_elim _ _ (Hdb _ _ Hin)) as (m & b & Hm & Hb & _).
    cbn. rewrite Hm. cbn. rewrite Hb. cbn. eauto.
Qed.

Lemma select_sales_list_all db :
  ledger_ok db → sids (select_sales_list db) = (sales_by_sid db).*1.
Proof.
  intros Hdb. apply omap_keys_all.
  - intros [sid row] r Hf. cbn in *.
    destruct (member db !! mid row); [ | done ]. cbn in Hf. by injection Hf as <-.
  - apply Forall_forall. intros [sid row] Hin. apply elem_of_sales_by_sid in Hin.
    destruct (sale_ok_elim _ _ (Hdb _ _ Hin)) as (m & b & Hm & Hb & _).
    cbn. rewrite Hm. cbn. eauto.
Qed.

Lemma sales_by_sid_length db : length (sales_by_sid db) = size (sale db).
Proof.
  unfold sales_by_sid. rewrite merge_sort_Permutation.
  apply length_map_to_list.
Qed.

(** Two lists in strictly ascending order of their keys with the same
    elements are the same list. *)
Lemma sorted_fmap_inv {A} (key : A → Z) l :
  StronglySorted Z.lt (key <$> l) → StronglySorted (λ x y, key x < key y) l.
Proof.
  induction l as [|x l IH]; intros Hs; [ constructor | ].
  cbn in Hs. apply StronglySorted_inv in Hs as [Hs Hall].
  constructor; [ by apply IH | ]. rewrite Forall_fmap in Hall.
  eapply Forall_impl; [ exact Hall | ]. intros y Hy. exact Hy.
Qed.

Lemma sorted_keys_NoDup {A} (key : A → Z) l :
  StronglySorted Z.lt (key <$> l) → NoDup l.
Proof.
  intros Hs%sorted_fmap_inv. induction Hs as [|x l _ IH Hall]; constructor; [ | done ].
  intros Hin. rewrite Forall_forall in Hall. specialize (Hall _ Hin). lia.
Qed.

Lemma sorted_keys_unique {A} (key : A → Z) l1 l2 :
  StronglySorted Z.lt (key <$> l1) → StronglySorted Z.lt (key <$> l2) →
  (∀ x, x ∈ l1 ↔ x ∈ l2) → l1 = l2.
Proof.
  intros H1 H2 Hel.
  apply (StronglySorted_unique_strong (λ x y, key x < key y)).
  - intros; lia.
  - by apply sorted_fmap_inv.
  - by apply sorted_fmap_inv.
  - apply NoDup_Permutation; [ by eapply sorted_keys_NoDup .. | done ].
Qed.

Lemma sorted_delete {A} (R : relation A) l i :
  StronglySorted R l → StronglySorted R (delete i l).
Proof.
  intros Hs. revert i. induction Hs as [|x l Hs IH Hall]; intros [|i]; cbn.
  - constructor.
  - constructor.
  - done.
  - constructor; [ apply IH | ]. by apply Forall_delete.
Qed.

(** The selection list is the one list in ascending order of [sid] that
    has a row for each sale whose member exists. *)
Lemma select_sales_list_unique db l :
  StronglySorted Z.lt (sids l) →
  (∀ sid name date,
     (sid, name, date) ∈ l ↔
     ∃ row m, sale db !! sid = Some row ∧ member db !! mid row = Some m
              ∧ name = mname m ∧ date = sdate row) →
  select_sales_list db = l.
Proof.
  intros Hs Hel. apply (sorted_keys_unique (λ r : list_row, r.1.1)).
  - apply select_sales_list_sorted.
  - exact Hs.
  - intros [[sid name] date]. by rewrite elem_of_select_sales_list, Hel.
Qed.

(** After the writes of a create the new sale is the last of the list. *)
Lemma select_sales_list_sold db row m :
  member db !! mid row = Some m →
  select_sales_list (sold row db)
  = select_sales_list db ++ [(next_sid db, mname m, sdate row)].
Proof.
  intros Hm. apply select_sales_list_unique.
  - unfold sids. rewrite fmap_app. apply StronglySorted_app_2.
    + intros x1 x2 Hx1 Hx2. apply list_elem_of_fmap in Hx1 as ([[sid name] date] & -> & Hin).
      apply elem_of_select_sales_list in Hin as (row' & _ & Hrow' & _).
      apply list_elem_of_singleton in Hx2 as ->. cbn.
      apply max_sid_bound in Hrow'. unfold next_sid. lia.
    + apply select_sales_list_sorted.
    + repeat constructor.
  - intros sid name date. rewrite elem_of_app, list_elem_of_singleton.
    rewrite elem_of_select_sales_list. cbn. split.
    + intros [(row' & m' & Hrow' & Hm' & -> & ->)|[= -> -> ->]].
      * exists row', m'. split_and!; try done.
        rewrite lookup_insert_ne; [ done | ].
        intros <-. by rewrite next_sid_fresh in Hrow'.
      * exists row, m. by rewrite lookup_insert_eq.
    + intros (row' & m' & Hrow' & Hm' & -> & ->).
      destruct (decide (next_sid db = sid)) as [<-|Hne].
      * rewrite lookup_insert_eq in Hrow'. injection Hrow' as <-.
        right. congruence.
      * rewrite lookup_insert_ne in Hrow' by done. left. eauto 10.
Qed.

(** After the UPDATE of an update the list is as it was. *)
Lemma select_sales_list_rewritten db sid row b d :
  sale db !! sid = Some row →
  select_sales_list (rewritten sid (rediscounted row b d) db) = select_sales_list db.
Proof.
  intros Hrow. apply select_sales_list_unique; [ apply select_sales_list_sorted | ].
  intros sid' name date. rewrite elem_of_select_sales_list. cbn.
  destruct (decide (sid = sid')) as [<-|Hne].
  - rewrite lookup_insert_eq, Hrow. split.
    + intros (row' & m & [= <-] & Hm & -> & ->). eauto 10.
    + intros (row' & m & [= <-] & Hm & -> & ->). eauto 10.
  - by rewrite lookup_insert_ne.
Qed.

(** After the DELETE of a delete the list has lost the selected row and no
    other. *)
Lemma select_sales_list_removed db i sid name date :
  select_sales_list db !! i = Some (sid, name, date) →
  select_sales_list (removed sid db) = delete i (select_sales_list db).
Proof.
  intros Hsel. pose proof (select_sales_list_sorted db) as Hs.
  apply select_sales_list_unique.
  - unfold sids in *. rewrite list_fmap_delete. by apply sorted_delete.
  - intros sid' name' date'.
    pose proof (sorted_keys_NoDup _ _ Hs) as Hnd.
    pose proof (delete_Permutation _ _ _ Hsel) as Hperm.
    rewrite Hperm in Hnd. apply NoDup_cons in Hnd as [Hnotin _].
    assert (Hin : (sid', name', date') ∈ select_sales_list db
                  ↔ (sid', name', date') = (sid, name, date)
                    ∨ (sid', name', date') ∈ delete i (select_sales_list db)).
    { rewrite Hperm at 1. apply elem_of_cons. }
    rewrite elem_of_select_sales_list in Hin.
    pose proof (list_elem_of_lookup_2 _ _ _ Hsel) as Hsel'.
    apply elem_of_select_sales_list in Hsel' as (row0 & m0 & Hrow0 & Hm0 & -> & ->).
    cbn. split.
    + intros Hd. destruct Hin as [_ Hin]. destruct (Hin (or_intror Hd)) as (row' & m' & Hrow' & Hm' & -> & ->).
      exists row', m'. split_and!; try done.
      apply lookup_delete_Some. split; [ | done ].
      intros <-. apply Hnotin. congruence.
    + intros (row' & m' & [Hne Hrow']%lookup_delete_Some & Hm' & -> & ->).
      destruct Hin as [Hin _]. destruct Hin as [[= -> _ _]|Hd]; [ eauto 10 | done | done ].
Qed.

(** ** Every way a create can succeed *)

Lemma add_sale_success w msg :
  (add_sale w).1 = Ok (true, msg) →
  ∃ sdate mid bid q d rest sqty sdiscount m b,
    stdin w = sdate :: mid :: bid :: q :: d :: rest
    ∧ (Py.len sdate = 10 ∧ Py.count sdate "-" = 2)
    ∧ (Py.int q = Some sqty ∧ 0 < sqty)
    ∧ (Py.int d = Some sdiscount ∧ 0 ≤ sdiscount)
    ∧ member (working (conn w)) !! mid = Some m
    ∧ book (working (conn w)) !! bid = Some b
    ∧ sqty ≤ bstock b
    ∧ (let stotal := bprice b * sqty - sdiscount in
       let row := mkSale sdate mid bid sqty sdiscount stotal in
       Forall (λ n, Py.fits_int64 n = true) [sqty; sdiscount; stotal; next_sid (working (conn w))]
       ∧ refused_in 3 (faults w) = false
       ∧ msg = msg_added stotal
       ∧ conn (add_sale w).2
         = mkConnection (sold row (working (conn w))) (sold row (working (conn w)))
       ∧ stdin (add_sale w).2 = rest).
Proof.
  destruct w as [lines out [cm wk] fs]. cbn [conn working stdin faults].
  start add_sale add_sale_body. run.
  all: intros [= <- <-]; cbn; try done.
  all: intros [= <-].
  all: match goal with
       | Hd : negb (Py.len ?s =? 10) || _ = false |- _ =>
           apply orb_false_elim in Hd as [Hd1 Hd2];
           apply negb_false_iff in Hd1, Hd2
       end.
  all: do 10 eexists.
  all: split; [ reflexivity | ].
  all: split_and!; try eassumption; try lia; try reflexivity.
  all: repeat constructor; assumption.
Qed.

(** ** What a start of the program does to the database on disk *)

(** The rows of [db] are rows of [db']. *)
Lemma insert_sale_unless_keeps n row db db' :
  insert_sale_unless n row db = inr db' →
  member db' = member db ∧ book db' = book db
  ∧ (∀ sid s, sale db !! sid = Some s → sale db' !! sid = Some s)
  ∧ (∀ sid, sale db' !! sid = None → sale db !! sid = None)
  ∧ (∀ sid s, sale db' !! sid = Some s →
       sale db !! sid = Some s ∨ (sale_seq db < sid ∧ s = row ∧ sale db !! n = None))
  ∧ sale_seq db ≤ sale_seq db'.
Proof.
  unfold insert_sale_unless, insert_sale.
  destruct (sale db !! n) eqn:Hn.
  { intros [= <-]. split_and!; auto. lia. }
  destruct (Py.fits_int64 (next_sid db)); [ | done ].
  intros [= <-]. cbn. split_and!; try done.
  - intros sid s Hs. rewrite lookup_insert_ne; [ done | ].
    intros <-. by rewrite next_sid_fresh in Hs.
  - intros sid Hs. apply lookup_insert_None in Hs as [Hs _]. done.
  - intros sid s Hs. destruct (decide (next_sid db = sid)) as [<-|Hne].
    + rewrite lookup_insert_eq in Hs. injection Hs as <-. right.
      unfold next_sid. split; [ lia | done ].
    + rewrite lookup_insert_ne in Hs by done. by left.
  - unfold next_sid. lia.
Qed.

(** ** Every way an update and a delete can end *)



(** ** When a create succeeds *)

(** X3: a create reports success exactly when five lines are typed of which
    the first has ten characters and two hyphens, the fourth is an integer
    above 0 and the fifth an integer that is not negative; the second is the
    key of a member and the third the key of a book whose stock is at least
    the quantity; SQLite's INTEGER can hold the quantity, the discount, the
    total and the new key; and the store accepts the INSERT, the UPDATE and
    the COMMIT.  The message then carries the price of the book times the
    quantity less the discount. *)
Theorem add_sale_succeeds_iff w msg :
  let wk := working (conn w) in
  (add_sale w).1 = Ok (true, msg) ↔
  ∃ sdate mid bid q d rest sqty sdiscount b,
    stdin w = sdate :: mid :: bid :: q :: d :: rest
    ∧ (Py.len sdate = 10 ∧ Py.count sdate "-" = 2)
    ∧ (Py.int q = Some sqty ∧ 0 < sqty)
    ∧ (Py.int d = Some sdiscount ∧ 0 ≤ sdiscount)
    ∧ is_Some (member wk !! mid)
    ∧ book wk !! bid = Some b
    ∧ sqty ≤ bstock b
    ∧ Forall (λ n, Py.fits_int64 n = true)
             [sqty; sdiscount; bprice b * sqty - sdiscount; next_sid wk]
    ∧ refused_in 3 (faults w) = false
    ∧ msg = msg_added (bprice b * sqty - sdiscount).
Proof.
  intros wk. subst wk. split.
  - intros (sdate & mid & bid & q & d & rest & sqty & sdiscount & m & b & Hin & Hdate
            & Hq & Hd & Hm & Hb & Hstock & Hfits & Hstore & Hmsg & _)%add_sale_success.
    exists sdate, mid, bid, q, d, rest, sqty, sdiscount, b. eauto 12.
  - intros (sdate & mid & bid & q & d & rest & sqty & sdiscount & b & Hin & [Hlen Hcount]
            & [Hq Hpos] & [Hd Hnn] & [m Hm] & Hb & Hstock & Hfits & Hstore & ->).
    destruct w as [lines out [cm wk] fs]. cbn [conn working stdin faults] in *.
    subst lines. pose proof (date_check_ok _ Hlen Hcount).
    rewrite !Forall_cons in Hfits. destruct Hfits as (Hf1 & Hf2 & Hf3 & Hf4 & _).
    start add_sale add_sale_body. run.
    all: intros [= <- <-]; try done.
    all: cbn in Hstore; congruence.
Qed.

(** ** The menu loop *)

(** X4: one turn of the menu.  The turn ends the loop exactly when the line
    read at the menu is [5] or empty.  It makes at most one write: the
    connection ends as it was, rolled back, or with one sale added, rewritten
    or deleted.  The exceptions it lets out are [EOFError] and
    [OverflowError], and [TypeError] on a ledger that is not sound only;
    [ValueError], [IndexError] and the errors of SQLite do not leave it. *)
Theorem menu_turn_summary w :
  ((menu_turn w).1 = Ok true ↔ ∃ rest, stdin w = "5" :: rest ∨ stdin w = "" :: rest)
  ∧ turn_conn (conn w) (conn (menu_turn w).2)
  ∧ (∀ e, (menu_turn w).1 = Err e →
       e = EOFError ∨ e = OverflowError
       ∨ (e = TypeError ∧ ¬ ledger_ok (working (conn w)))).
Proof.
  split_and!.
  - destruct w as [lines out c fs]. cbn [stdin].
    start menu_turn menu_turn_body. exec.
    destruct lines as [|choice lines]; exec.
    { intros [= <- <-]. cbn. split; [ done | ]. intros [rest [?|?]]; done. }
    repeat (split_stuck; exec).
    1-4: match goal with
         | |- context [call ?f ?w0] => unfold call; destruct (f w0) as [[?|?] [? ? ? ?]]
         | |- context [?f ?w0] => destruct (f w0) as [[?|?] [? ? ? ?]]
         end; exec; menu_handler.
    all: try match goal with a : (bool * string)%type |- _ => destruct a; exec end.
    all: intros [= <- <-]; cbn.
    all: repeat match goal with
                | H : (?c =? _)%string = true |- _ =>
                    apply String.eqb_eq in H; subst c
                end.
    all: split;
      [ try done
      | intros [rest [?|?]]; simplify_eq; cbn in *; try done ].
    intros _.
    match goal with
    | H : _ || _ = true |- _ =>
        apply orb_prop in H as [H|H]; apply String.eqb_eq in H; subst; eauto
    end.
  - apply menu_turn_turn.
  - intros e He. pose proof (menu_turn_errors w) as H. by rewrite He in H.
Qed.

(** ** What every reachable database satisfies *)

Lemma seed_db_consistent : consistent seed_db.
Proof. apply initialize_db_consistent, empty_db_consistent. Qed.

Lemma session_consistent lines : both consistent (conn (session lines)).
Proof. split; apply seed_db_consistent. Qed.

(** X5: the operations keep the ledger consistent.  From a connection in
    which, on both sides, every sale has its member and its book, a quantity
    above 0, a discount of at least 0, the total [bprice * sqty - sdiscount]
    at the price the book has now and a key from 1 to the AUTOINCREMENT
    counter, no stock is negative and the seed books have their seed price,
    a create, an update and a delete end in such a connection, whatever is
    typed and whatever the store answers; and so does the menu loop. *)
Theorem consistency_kept w :
  both consistent (conn w) →
  both consistent (conn (add_sale w).2)
  ∧ both consistent (conn (update_sale w).2)
  ∧ both consistent (conn (delete_sale w).2)
  ∧ (∀ fuel e w', main_loop fuel w = Some (e, w') → both consistent (conn w')).
Proof.
  intros Hc. split_and!.
  - exact (turn_conn_both _ write_consistent _ _ (add_sale_turn w) Hc).
  - exact (turn_conn_both _ write_consistent _ _ (update_sale_turn w) Hc).
  - exact (turn_conn_both _ write_consistent _ _ (delete_sale_turn w) Hc).
  - intros fuel e w'. by apply main_loop_both; [ apply write_consistent | ].
Qed.

Lemma consistency_kept_witness :
  both consistent
    (conn (add_sale (session ["2024-01-01"; "M001"; "B001"; "2"; "100"])).2)
  ∧ sale_ok seed_db (mkSale "2024-01-01" "M001" "B001" 2 100 1100) = true.
Proof.
  split.
  - apply (consistency_kept (session ["2024-01-01"; "M001"; "B001"; "2"; "100"])).
    apply session_consistent.
  - vm_compute. reflexivity.
Defined.

(** X6: the databases on disk.  In every database the program leaves on
    disk, after any number of runs from no file at all, whatever was typed
    and whatever the store answered, each sale has its member and its book,
    a quantity above 0, a discount of at least 0, the total
    [bprice * sqty - sdiscount] at the price the book has now, and a key
    from 1 to the AUTOINCREMENT counter; and its book has a stock of at
    least 0. *)
Theorem on_disk_sales db sid s :
  on_disk db → sale db !! sid = Some s →
  ∃ m b, member db !! mid s = Some m ∧ book db !! bid s = Some b
         ∧ 0 < sqty s ∧ 0 ≤ sdiscount s
         ∧ stotal s = bprice b * sqty s - sdiscount s
         ∧ 1 ≤ sid ≤ sale_seq db
         ∧ 0 ≤ bstock b.
Proof.
  intros ((Hl & _) & Hn & Hk)%on_disk_consistent Hs.
  destruct (sale_ok_elim _ _ (Hl _ _ Hs)) as (m & b & Hm & Hb & Hq & Hd & Ht).
  exists m, b. split_and!; try done.
  - exact (proj1 (Hk _ _ Hs)).
  - exact (proj2 (Hk _ _ Hs)).
  - exact (Hn _ _ Hb).
Qed.

Lemma on_disk_sales_witness :
  ∃ w, main empty_db ["1"; "2024-01-01"; "M001"; "B001"; "2"; "100"; "5"] []
       = Some (ExitNormally, w)
       ∧ ∃ m b, member (committed (conn w)) !! "M001" = Some m
                ∧ book (committed (conn w)) !! "B001" = Some b
                ∧ 0 < 2 ∧ 0 ≤ 100
                ∧ 1100 = bprice b * 2 - 100
                ∧ 1 ≤ 5 ≤ sale_seq (committed (conn w))
                ∧ 0 ≤ bstock b.
Proof.
  eexists. split.
  - vm_compute. reflexivity.
  - apply (on_disk_sales _ 5 (mkSale "2024-01-01" "M001" "B001" 2 100 1100)).
    + apply (on_disk_run empty_db
               ["1"; "2024-01-01"; "M001"; "B001"; "2"; "100"; "5"] []
               ExitNormally _ on_disk_first).
      vm_compute. reflexivity.
    + vm_compute. reflexivity.
Defined.

(** ** How the process ends *)

(** X7: the end of the process.  On a consistent database file the program
    always comes to an end, within one turn more than there are lines typed.
    It ends by the exit choice of the menu, or with a traceback of
    [EOFError], of [OverflowError], or of the error of SQLite that stopped
    the script of [initialize_db].  No [ValueError], [IndexError] or
    [TypeError] ends it, and no error of SQLite once the menu is shown.  The
    connection it ends with is consistent. *)
Theorem main_ends disk lines answers :
  consistent disk →
  ∃ e w, main disk lines answers = Some (e, w)
         ∧ (e = ExitNormally ∨ e = Traceback EOFError ∨ e = Traceback OverflowError
            ∨ ∃ err, e = Traceback (Sqlite err) ∧ (initialize_db disk).1 = Some err)
         ∧ both consistent (conn w).
Proof.
  intros Hdisk. destruct (main_total disk lines answers) as [[e w] Hrun].
  exists e, w. split; [ done | ]. split; [ | by eapply main_consistent ].
  revert Hrun. unfold main.
  pose proof (initialize_db_consistent _ Hdisk) as Hinit.
  destruct (initialize_db disk) as [[err|] db]; cbn in Hinit; cbv beta iota.
  - intros [= <- <-]. cbn. eauto 10.
  - intros Hloop. apply main_loop_exits in Hloop; [ | done ].
    destruct Hloop as [->|[->| ->]]; auto.
Qed.

Lemma main_ends_witness :
  ∃ e w, main empty_db ["3"; "1"; "9223372036854775808"; "5"] [] = Some (e, w)
         ∧ (e = ExitNormally ∨ e = Traceback EOFError ∨ e = Traceback OverflowError
            ∨ ∃ err, e = Traceback (Sqlite err) ∧ (initialize_db empty_db).1 = Some err)
         ∧ both consistent (conn w).
Proof.
  apply (main_ends empty_db ["3"; "1"; "9223372036854775808"; "5"] []).
  apply empty_db_consistent.
Defined.

(** ** The catalogue and the keys *)

(** X8: the menu loop and the catalogue.  From a connection with nothing
    uncommitted, whatever is typed and whatever the store answers, the loop
    leaves the table of members as it was and the table of books with the
    same keys, titles and prices: no operation adds, removes or renames a
    member or a book or changes a price.  A stock is at most what it was:
    nothing gives stock back, not a delete, and not an update. *)
Theorem catalogue_fixed fuel db lines out fs e w' :
  main_loop fuel (mkWorld lines out (mkConnection db db) fs) = Some (e, w') →
  catalogue_le db (committed (conn w')) ∧ catalogue_le db (working (conn w')).
Proof.
  intros Hloop.
  destruct (main_loop_from catalogue_le write_catalogue_le _ _ _ _ Hloop) as [Hc Hw].
  cbn in Hc, Hw. split; [ by destruct Hc | by destruct Hw ].
Qed.

Lemma catalogue_fixed_witness :
  ∃ w', main_loop 3 (session ["4"; "1"; "1"; "2024-01-01"; "M001"; "B001"; "2"; "100"; "5"])
        = Some (ExitNormally, w')
        ∧ catalogue_le seed_db (committed (conn w'))
        ∧ catalogue_le seed_db (working (conn w'))
        ∧ bstock <$> book (committed (conn w')) !! "B001" = Some 48.
Proof.
  eexists. split; [ vm_compute; reflexivity | ].
  split; [ | split ].
  - eapply (catalogue_fixed 3 seed_db
              ["4"; "1"; "1"; "2024-01-01"; "M001"; "B001"; "2"; "100"; "5"]
              [] [] ExitNormally _).
    vm_compute. reflexivity.
  - eapply (catalogue_fixed 3 seed_db
              ["4"; "1"; "1"; "2024-01-01"; "M001"; "B001"; "2"; "100"; "5"]
              [] [] ExitNormally _).
    vm_compute. reflexivity.
  - vm_compute. reflexivity.
Defined.

Lemma write_spent sid db db' : spent sid db → write db db' → spent sid db'.
Proof.
  intros [Hle Hfree] [row m b Hm Hb Hq Hd Ht Hk|sid0 row m b d Hrow Hm Hb Hd|sid0 row m Hrow Hm];
    unfold spent; cbn.
  - assert (sid < next_sid db) by (unfold next_sid; lia).
    split; [ lia | ]. rewrite lookup_insert_ne; [ done | lia ].
  - split; [ done | ]. rewrite lookup_insert_ne; [ done | congruence ].
  - split; [ done | ]. apply lookup_delete_None. by right.
Qed.

Lemma initialize_db_spent sid db : spent sid db → spent sid (initialize_db db).2.
Proof.
  apply executescript_keeps. unfold seed_script.
  repeat apply Forall_cons_2; [ .. | apply Forall_nil_2 ].
  all: intros db0 db1 [Hle Hfree].
  all: first
         [ by intros [= <-]
         | intros (_ & _ & _ & _ & Hnew & Hseq)%insert_sale_unless_keeps;
           split; [ lia | ];
           destruct (sale db1 !! sid) as [s|] eqn:Hs; [ | done ];
           destruct (Hnew _ _ Hs) as [Hold|[Hlt _]]; [ congruence | lia ] ].
Qed.

(** X9: keys are not given twice.  A key that the AUTOINCREMENT counter has
    passed and that no sale has, as the key of a deleted sale, is given to no
    sale again: not by a create, not by the script of [initialize_db] at a
    later start, whatever is typed and whatever the store answers.  A delete
    of a sale whose key the counter has reached leaves such a key. *)
Theorem spent_keys_stay_spent sid :
  (∀ disk lines answers e w',
     spent sid disk → main disk lines answers = Some (e, w') →
     spent sid (committed (conn w')) ∧ spent sid (working (conn w')))
  ∧ (∀ fuel w e w',
       spent sid (committed (conn w)) → spent sid (working (conn w)) →
       main_loop fuel w = Some (e, w') →
       spent sid (committed (conn w')) ∧ spent sid (working (conn w')))
  ∧ (∀ db, sid ≤ sale_seq db → spent sid (removed sid db)).
Proof.
  split_and!.
  - intros disk lines answers e w' Hsp. unfold main.
    pose proof (initialize_db_spent _ _ Hsp) as Hinit.
    destruct (initialize_db disk) as [[err|] db]; cbn in Hinit; cbv beta iota.
    + by intros [= <- <-].
    + apply (main_loop_both (spent sid) (write_spent sid)). by split.
  - intros fuel w e w' Hc Hw.
    apply (main_loop_both (spent sid) (write_spent sid)). by split.
  - intros db Hle. split; [ done | ]. cbn. apply lookup_delete_None. by left.
Qed.

Lemma spent_keys_stay_spent_witness :
  ∃ w1 w2,
    main empty_db ["4"; "4"; "5"] [] = Some (ExitNormally, w1)
    ∧ main (committed (conn w1)) ["1"; "2024-01-01"; "M001"; "B001"; "2"; "100"; "5"] []
      = Some (ExitNormally, w2)
    ∧ spent 4 (committed (conn w1))
    ∧ spent 4 (committed (conn w2))
    ∧ dom (sale (committed (conn w2))) = {[1; 2; 3; 5; 6]}.
Proof.
  do 2 eexists. split; [ vm_compute; reflexivity | ].
  split; [ vm_compute; reflexivity | ].
  match goal with
  | |- spent 4 ?db1 ∧ _ =>
      assert (Hsp : spent 4 db1)
        by (split; [ vm_compute; discriminate | vm_compute; reflexivity ])
  end.
  split; [ exact Hsp | ]. split; [ | vm_compute; reflexivity ].
  destruct (spent_keys_stay_spent 4) as (Hmain & _ & _).
  match goal with
  | |- spent 4 (committed (conn ?w2)) =>
      refine (proj1 (Hmain _ ["1"; "2024-01-01"; "M001"; "B001"; "2"; "100"; "5"] []
                           ExitNormally w2 Hsp _))
  end.
  vm_compute. reflexivity.
Defined.

(** ** The report and the list *)

Lemma show_sales_refused lines out c fs err :
  show_sales (mkWorld lines out c (Some err :: fs))
  = (Err (Sqlite err), mkWorld lines out c fs).
Proof. start show_sales show_sales_body. run. by intros [= <- <-]. Qed.

(** X10: the report.  [show_sales] asks nothing and leaves the connection
    as it is.  When the store refuses the read of its connection, as SQLite
    does while the main connection holds the lock of a transaction that it
    could not commit, [show_sales] prints nothing and lets the error out; the
    menu loop then prints the message of the error and goes on with the next
    turn.  When the store lets it read, it prints one report, read from the
    committed database.  The report has one row for each sale whose member
    and book exist, with the name, the title and the price they have now, in
    strictly ascending order of [sid]; a sale whose member or book is missing
    is left out. *)
Theorem show_sales_prints lines out c fs :
  let rows := select_sales_report (committed c) in
  (∀ err, show_sales (mkWorld lines out c (Some err :: fs))
          = (Err (Sqlite err), mkWorld lines out c fs))
  ∧ show_sales (mkWorld lines out c (None :: fs))
    = (Ok tt, mkWorld lines (out ++ [SalesReport rows]) c fs)
  ∧ show_sales (mkWorld lines out c [])
    = (Ok tt, mkWorld lines (out ++ [SalesReport rows]) c [])
  ∧ (∀ err, menu_turn (mkWorld ("2" :: lines) out c (Some err :: fs))
            = (Ok false,
               mkWorld lines
                 (out ++ [Menu; Prompt ask_menu_choice;
                          Line match err with
                               | OperationalError oe => msg_operational oe
                               | DatabaseError de => msg_database de
                               end])
                 c fs))
  ∧ StronglySorted Z.lt (report_sids rows)
  ∧ (∀ r, r ∈ rows ↔
          ∃ row m b,
            sale (committed c) !! r_sid r = Some row
            ∧ member (committed c) !! mid row = Some m
            ∧ book (committed c) !! bid row = Some b
            ∧ r = mkReportRow (r_sid r) (sdate row) (mname m) (btitle b) (bprice b)
                              (sqty row) (sdiscount row) (stotal row)).
Proof.
  intros rows. subst rows. split_and!.
  - apply show_sales_refused.
  - start show_sales show_sales_body. run. by intros [= <- <-].
  - start show_sales show_sales_body. run. by intros [= <- <-].
  - intros err. start menu_turn menu_turn_body. exec.
    rewrite show_sales_refused. exec.
    destruct err; exec; intros [= <- <-]; by rewrite <- !app_assoc.
  - apply select_sales_report_sorted.
  - intros r. apply elem_of_select_sales_report.
Qed.

Lemma show_sales_prints_witness :
  let locked := OperationalError "database is locked" in
  let w1 := (update_sale (mkWorld ["1"; "500"] [] (mkConnection seed_db seed_db)
                                  [None; Some locked])).2 in
  show_sales (mkWorld [] [] (conn w1) [Some locked])
  = (Err (Sqlite locked), mkWorld [] [] (conn w1) []).
Proof.
  intros locked w1.
  destruct (show_sales_prints [] [] (conn w1) []) as (Hrefused & _).
  exact (Hrefused locked).
Defined.

Lemma elem_of_sales_keys db sid :
  sid ∈ (sales_by_sid db).*1 ↔ is_Some (sale db !! sid).
Proof.
  rewrite list_elem_of_fmap. split.
  - intros ([sid' row] & -> & Hin). apply elem_of_sales_by_sid in Hin. eauto.
  - intros [row Hrow]. exists (sid, row). split; [ done | ].
    by apply elem_of_sales_by_sid.
Qed.

(** X11: nothing is missing from the report and the list of a sound ledger.
    Where every sale has its member and its book, a quantity above 0, a
    discount of at least 0 and the total [bprice * sqty - sdiscount] at the
    price its book has now, the report has each sale once and as many rows
    as there are sales, the total of each row is the price shown times the
    quantity less the discount shown, and the list that update and delete
    offer has each sale once. *)
Theorem report_complete db :
  ledger_ok db →
  let rows := select_sales_report db in
  (∀ sid, sid ∈ report_sids rows ↔ is_Some (sale db !! sid))
  ∧ length rows = size (sale db)
  ∧ Forall (λ r, r_stotal r = r_bprice r * r_sqty r - r_sdiscount r
                 ∧ 0 < r_sqty r ∧ 0 ≤ r_sdiscount r) rows
  ∧ (∀ sid, sid ∈ sids (select_sales_list db) ↔ is_Some (sale db !! sid))
  ∧ length (select_sales_list db) = size (sale db).
Proof.
  intros Hdb rows. subst rows.
  pose proof (select_sales_report_all _ Hdb) as Hr.
  pose proof (select_sales_list_all _ Hdb) as Hl.
  split_and!.
  - intros sid. rewrite Hr. apply elem_of_sales_keys.
  - rewrite <- sales_by_sid_length, <- (length_fmap fst (sales_by_sid db)), <- Hr.
    unfold report_sids. by rewrite length_fmap.
  - apply Forall_forall. intros r (row & m & b & Hrow & Hm & Hb & ->)%elem_of_select_sales_report.
    cbn. destruct (sale_ok_elim _ _ (Hdb _ _ Hrow)) as (m' & b' & Hm' & Hb' & Hq & Hd & Ht).
    rewrite Hb in Hb'. injection Hb' as <-. done.
  - intros sid. rewrite Hl. apply elem_of_sales_keys.
  - rewrite <- sales_by_sid_length, <- (length_fmap fst (sales_by_sid db)), <- Hl.
    unfold sids. by rewrite length_fmap.
Qed.

Lemma report_complete_witness :
  (∀ sid, sid ∈ report_sids (select_sales_report seed_db) ↔ is_Some (sale seed_db !! sid))
  ∧ length (select_sales_report seed_db) = size (sale seed_db)
  ∧ Forall (λ r, r_stotal r = r_bprice r * r_sqty r - r_sdiscount r
                 ∧ 0 < r_sqty r ∧ 0 ≤ r_sdiscount r) (select_sales_report seed_db)
  ∧ (∀ sid, sid ∈ sids (select_sales_list seed_db) ↔ is_Some (sale seed_db !! sid))
  ∧ length (select_sales_list seed_db) = size (sale seed_db).
Proof.
  apply (report_complete seed_db). apply seed_db_consistent.
Defined.

(** ** The list after a write *)

(** An update that is accepted, in full: what is read, what is printed and
    what is stored. *)
Lemma update_sale_accepted choice d rest out c fs n sid name date sdiscount row b :
  Py.int choice = Some n →
  1 ≤ n →
  select_sales_list (working c) !! Z.to_nat (n - 1) = Some (sid, name, date) →
  Py.int d = Some sdiscount →
  0 ≤ sdiscount →
  sale (working c) !! sid = Some row →
  book (working c) !! bid row = Some b →
  Py.fits_int64 sdiscount && Py.fits_int64 (bprice b * sqty row - sdiscount) = true →
  refused_in 2 fs = false →
  let wk' := rewritten sid (rediscounted row b sdiscount) (working c) in
  update_sale (mkWorld (choice :: d :: rest) out c fs)
  = (Ok tt,
     mkWorld rest
       (out ++ [SalesList true (select_sales_list (working c));
                Prompt ask_update_choice; Prompt ask_new_discount;
                Line (msg_updated sid (bprice b * sqty row - sdiscount))])
       (mkConnection wk' wk') (drop 2 fs)).
Proof.
  intros Hchoice Hn Hsel Hd Hnn Hrow Hb Hfits Hstore wk'.
  subst wk'. destruct c as [cm wk]. cbn [working committed] in *.
  pose proof (strip_test _ (int_not_blank _ _ Hchoice)) as Hstrip.
  pose proof (range_test _ _ _ Hsel Hn) as Hrange.
  pose proof (alter_lookup_insert
                (λ r, mkSale (sdate r) (mid r) (bid r) (sqty r) sdiscount
                             (bprice b * sqty row - sdiscount)) _ _ _ Hrow) as Halter.
  apply andb_prop in Hfits as [Hf1 Hf2].
  destruct (select_sales_list wk) as [|first others] eqn:Hlist.
  { by rewrite lookup_nil in Hsel. }
  cbn in Hrange.
  start update_sale update_sale_body. run.
  all: intros [= <- <-]; cbn; rewrite ?Halter, <- ?app_assoc; try done.
  all: cbn in Hstore; congruence.
Qed.

(** A delete that is accepted, in full. *)
Lemma delete_sale_accepted choice rest out c fs n sid name date :
  Py.int choice = Some n →
  1 ≤ n →
  select_sales_list (working c) !! Z.to_nat (n - 1) = Some (sid, name, date) →
  refused_in 2 fs = false →
  let wk' := removed sid (working c) in
  delete_sale (mkWorld (choice :: rest) out c fs)
  = (Ok tt,
     mkWorld rest
       (out ++ [SalesList false (select_sales_list (working c));
                Prompt ask_delete_choice; Line (msg_deleted sid)])
       (mkConnection wk' wk') (drop 2 fs)).
Proof.
  intros Hchoice Hn Hsel Hstore wk'.
  subst wk'. destruct c as [cm wk]. cbn [working committed] in *.
  pose proof (strip_test _ (int_not_blank _ _ Hchoice)) as Hstrip.
  pose proof (range_test _ _ _ Hsel Hn) as Hrange.
  destruct (select_sales_list wk) as [|first others] eqn:Hlist.
  { by rewrite lookup_nil in Hsel. }
  cbn in Hrange.
  start delete_sale delete_sale_body. run.
  all: intros [= <- <-]; cbn; rewrite <- ?app_assoc; try done.
  all: cbn in Hstore; congruence.
Qed.

(** X12: a new sale is the last of the list.  After a create that reports
    success, the list that update and delete offer is the list as it was
    with one row more at its end, which has the new key, the name of the
    member and the date as typed; the number that selects the new sale is
    the length of the list.  The new key is above every key of the table. *)
Theorem add_sale_listed_last w msg :
  (add_sale w).1 = Ok (true, msg) →
  let wk := working (conn w) in
  let wk' := working (conn (add_sale w).2) in
  ∃ sdate mid m rest,
    stdin w = sdate :: mid :: rest
    ∧ member wk !! mid = Some m
    ∧ select_sales_list wk' = select_sales_list wk ++ [(next_sid wk, mname m, sdate)]
    ∧ select_sales_list wk' !! length (select_sales_list wk)
      = Some (next_sid wk, mname m, sdate)
    ∧ Forall (λ sid, sid < next_sid wk) (sids (select_sales_list wk))
    ∧ committed (conn (add_sale w).2) = wk'.
Proof.
  intros (date & k & kb & q & d & rest & qty & discount & m & b & Hin & _
          & _ & _ & Hm & _ & _ & _ & _ & _ & Hconn & _)%add_sale_success wk wk'.
  subst wk wk'. rewrite Hconn. cbn [working committed].
  exists date, k, m, (kb :: q :: d :: rest).
  rewrite (select_sales_list_sold _ _ m) by done. cbn [mid sdate].
  split_and!; try done.
  - by rewrite lookup_app_r, Nat.sub_diag.
  - apply Forall_forall. intros sid ([[sid' name'] date'] & -> & Hel)%list_elem_of_fmap.
    apply elem_of_select_sales_list in Hel as (row & _ & Hrow & _). cbn.
    apply max_sid_bound in Hrow. unfold next_sid. lia.
Qed.

Lemma add_sale_listed_last_witness :
  let w := session ["2024-01-01"; "M002"; "B001"; "2"; "100"] in
  ∃ sdate mid m rest,
    stdin w = sdate :: mid :: rest
    ∧ member seed_db !! mid = Some m
    ∧ select_sales_list (working (conn (add_sale w).2))
      = select_sales_list seed_db ++ [(next_sid seed_db, mname m, sdate)]
    ∧ select_sales_list (working (conn (add_sale w).2)) !! length (select_sales_list seed_db)
      = Some (next_sid seed_db, mname m, sdate)
    ∧ Forall (λ sid, sid < next_sid seed_db) (sids (select_sales_list seed_db))
    ∧ committed (conn (add_sale w).2) = working (conn (add_sale w).2).
Proof.
  apply (add_sale_listed_last (session ["2024-01-01"; "M002"; "B001"; "2"; "100"])
                              (msg_added 1100)).
  vm_compute. reflexivity.
Defined.

(** X13: the list after a delete.  A delete that is accepted takes the
    selected row out of the list and leaves every other row: the rows before
    it keep their number, each row after it moves up by one, and the list is
    one row shorter.  The deletion is committed. *)
Theorem delete_sale_list_shifts choice rest out c fs n sid name date :
  Py.int choice = Some n →
  1 ≤ n →
  select_sales_list (working c) !! Z.to_nat (n - 1) = Some (sid, name, date) →
  refused_in 2 fs = false →
  let l := select_sales_list (working c) in
  let res := delete_sale (mkWorld (choice :: rest) out c fs) in
  let l' := select_sales_list (working (conn res.2)) in
  l' = delete (Z.to_nat (n - 1)) l
  ∧ (∀ i, (i < Z.to_nat (n - 1))%nat → l' !! i = l !! i)
  ∧ (∀ i, (Z.to_nat (n - 1) ≤ i)%nat → l' !! i = l !! S i)
  ∧ S (length l') = length l
  ∧ committed (conn res.2) = working (conn res.2).
Proof.
  intros Hchoice Hn Hsel Hstore l res l'. subst l res l'.
  rewrite (delete_sale_accepted _ _ _ _ _ _ _ _ _ Hchoice Hn Hsel Hstore).
  cbn [snd conn working committed].
  rewrite (select_sales_list_removed _ _ _ _ _ Hsel).
  split_and!; try done.
  - intros i Hi. by apply list_lookup_delete_lt.
  - intros i Hi. by apply list_lookup_delete_ge.
  - rewrite length_delete by eauto. apply lookup_lt_Some in Hsel. lia.
Qed.

Lemma delete_sale_list_shifts_witness :
  let l := select_sales_list seed_db in
  let res := delete_sale (session ["2"]) in
  let l' := select_sales_list (working (conn res.2)) in
  l' = delete (Z.to_nat (2 - 1)) l
  ∧ (∀ i, (i < Z.to_nat (2 - 1))%nat → l' !! i = l !! i)
  ∧ (∀ i, (Z.to_nat (2 - 1) ≤ i)%nat → l' !! i = l !! S i)
  ∧ S (length l') = length l
  ∧ committed (conn res.2) = working (conn res.2).
Proof.
  apply (delete_sale_list_shifts "2" [] [] (mkConnection seed_db seed_db) []
                                 2 2 "Bob" "2024-01-16").
  - reflexivity.
  - lia.
  - vm_compute. reflexivity.
  - reflexivity.
Defined.

(** X14: an update twice.  An update that is accepted leaves the list as it
    was, so the same number selects the same sale again; and the same
    discount typed again for it, with the store accepting, changes nothing
    in the database: the total is computed from the price and the quantity,
    not from the total that is stored. *)
Theorem update_sale_twice choice d rest out c n sid name date sdiscount row b :
  Py.int choice = Some n →
  1 ≤ n →
  select_sales_list (working c) !! Z.to_nat (n - 1) = Some (sid, name, date) →
  Py.int d = Some sdiscount →
  0 ≤ sdiscount →
  sale (working c) !! sid = Some row →
  book (working c) !! bid row = Some b →
  Py.fits_int64 sdiscount && Py.fits_int64 (bprice b * sqty row - sdiscount) = true →
  let w1 := (update_sale (mkWorld (choice :: d :: choice :: d :: rest) out c [])).2 in
  select_sales_list (working (conn w1)) = select_sales_list (working c)
  ∧ stdin w1 = choice :: d :: rest
  ∧ (update_sale w1).1 = Ok tt
  ∧ conn (update_sale w1).2 = conn w1
  ∧ stdin (update_sale w1).2 = rest.
Proof.
  intros Hchoice Hn Hsel Hd Hnn Hrow Hb Hfits w1. subst w1.
  rewrite (update_sale_accepted choice d (choice :: d :: rest) out c [] _ _ _ _ _ _ _
             Hchoice Hn Hsel Hd Hnn Hrow Hb Hfits eq_refl).
  cbn [snd conn working stdin drop].
  pose proof (select_sales_list_rewritten _ _ _ b sdiscount Hrow) as Hlist.
  split; [ done | ]. split; [ done | ].
  rewrite (update_sale_accepted choice d rest _ _ [] n sid name date sdiscount
             (rediscounted row b sdiscount) b); try done.
  - cbn [fst snd conn stdin working]. split_and!; try done.
    unfold rewritten, rediscounted. cbn. by rewrite insert_insert_eq.
  - cbn [working]. by rewrite Hlist.
  - cbn. by rewrite lookup_insert_eq.
Qed.

Lemma update_sale_twice_witness :
  let w1 := (update_sale (session ["3"; "500"; "3"; "500"])).2 in
  select_sales_list (working (conn w1)) = select_sales_list seed_db
  ∧ stdin w1 = ["3"; "500"]
  ∧ (update_sale w1).1 = Ok tt
  ∧ conn (update_sale w1).2 = conn w1
  ∧ stdin (update_sale w1).2 = [].
Proof.
  apply (update_sale_twice "3" "500" [] [] (mkConnection seed_db seed_db)
                           3 3 "Alice" "2024-01-17" 500
                           (mkSale "2024-01-17" "M001" "B003" 3 200 3400)
                           (mkBook "Machine Learning Guide" 1200 20)).
  - reflexivity.
  - lia.
  - vm_compute. reflexivity.
  - reflexivity.
  - lia.
  - vm_compute. reflexivity.
  - vm_compute. reflexivity.
  - vm_compute. reflexivity.
Defined.

(** ** A start of the program on a database that exists *)

#[local] Instance grows_refl : Reflexive grows.
Proof. intros db. unfold grows. split_and!; auto. lia. Qed.

#[local] Instance grows_trans : Transitive grows.
Proof.
  intros d1 d2 d3 (Hm1 & Hb1 & Hs1 & Hn1 & Hq1) (Hm2 & Hb2 & Hs2 & Hn2 & Hq2).
  unfold grows. split_and!; auto; [ | lia ].
  intros sid s Hs. destruct (Hn2 _ _ Hs) as [Hs'|Hlt]; [ | right; lia ].
  destruct (Hn1 _ _ Hs') as [Hs''|Hlt]; auto.
Qed.

Lemma seed_script_grows :
  Forall (λ stmt, ∀ d d', stmt d = inr d' → grows d d') seed_script.
Proof.
  unfold seed_script. repeat apply Forall_cons_2; [ .. | apply Forall_nil_2 ].
  all: intros d d'.
  all: first
         [ intros [= <-]; unfold grows; cbn; split_and!; auto; try lia;
           intros k x; apply insert_or_ignore_kept
         | intros (Hm & Hb & Hs & _ & Hnew & Hq)%insert_sale_unless_keeps;
           unfold grows; rewrite Hm, Hb; split_and!; auto;
           intros sid s Hsid; destruct (Hnew _ _ Hsid) as [?|[? _]]; auto ].
Qed.

Lemma executescript_grows script db :
  Forall (λ stmt, ∀ d d', stmt d = inr d' → grows d d') script →
  grows db (executescript script db).2.
Proof.
  intros Hall. revert db. induction Hall as [|stmt script Hstmt _ IH]; intros db.
  - done.
  - cbn. destruct (stmt db) as [err|db'] eqn:E; [ done | ].
    etrans; [ by apply Hstmt | apply IH ].
Qed.

Lemma executescript_split pre stmt post db db' :
  executescript (pre ++ stmt :: post) db = (None, db') →
  ∃ d d', executescript pre db = (None, d) ∧ stmt d = inr d'
          ∧ executescript post d' = (None, db').
Proof.
  revert db. induction pre as [|s pre IH]; intros db; cbn.
  - destruct (stmt db) as [err|d'] eqn:E; [ done | ]. eauto.
  - destruct (s db) as [err|d1]; [ done | ]. apply IH.
Qed.

Lemma grows_spent n db db' : grows db db' → spent n db → spent n db'.
Proof.
  intros (_ & _ & _ & Hnew & Hq) [Hle Hfree]. split; [ lia | ].
  destruct (sale db' !! n) as [s|] eqn:Hs; [ | done ].
  destruct (Hnew _ _ Hs); [ congruence | lia ].
Qed.

Lemma seed_script_sales :
  seed_script
  = take 6 seed_script ++ ((λ '(n, row), insert_sale_unless n row) <$> seed_sales).
Proof. reflexivity. Qed.

(** X15: a start keeps what is there.  Whatever database [initialize_db]
    finds, every row of it is in the database it leaves, as it was: no member
    and no book is rewritten, no stock is set back to its seed value, no sale
    is touched.  The sales it adds have keys above the AUTOINCREMENT
    counter. *)
Theorem initialize_db_keeps_rows db : grows db (initialize_db db).2.
Proof. apply executescript_grows, seed_script_grows. Qed.

Lemma insert_or_ignore_present {A} key (row : A) t :
  is_Some (t !! key) → insert_or_ignore key row t = t.
Proof. intros [x Hx]. unfold insert_or_ignore. by rewrite Hx. Qed.

(** X16: a start that has nothing to do.  On a database that has the three
    seed members, the three seed books and sales under the keys 1 to 4,
    [initialize_db] changes nothing, whatever these rows hold by now. *)
Theorem initialize_db_idle db :
  Forall (λ k, is_Some (member db !! k)) ["M001"; "M002"; "M003"] →
  Forall (λ k, is_Some (book db !! k)) ["B001"; "B002"; "B003"] →
  Forall (λ n, is_Some (sale db !! n)) seed_sales.*1 →
  initialize_db db = (None, db).
Proof.
  intros Hm Hb Hs. rewrite !Forall_cons in Hm, Hb. cbn in Hs. rewrite !Forall_cons in Hs.
  destruct Hm as (Hm1 & Hm2 & Hm3 & _), Hb as (Hb1 & Hb2 & Hb3 & _).
  destruct Hs as ([s1 Hs1] & [s2 Hs2] & [s3 Hs3] & [s4 Hs4] & _).
  destruct db as [m b s q]. cbn [member book sale] in *.
  unfold initialize_db, seed_script.
  repeat (erewrite (executescript_cons_ok _ _ _ (mkDB m b s q));
          [ | unfold seed_member, seed_book; cbn [member book sale sale_seq];
              by rewrite insert_or_ignore_present ]).
  repeat (erewrite (executescript_cons_ok _ _ _ (mkDB m b s q));
          [ | unfold insert_sale_unless; cbn [sale];
              first [ by rewrite Hs1 | by rewrite Hs2 | by rewrite Hs3 | by rewrite Hs4 ] ]).
  reflexivity.
Qed.

Lemma initialize_db_idle_witness : initialize_db seed_db = (None, seed_db).
Proof.
  apply (initialize_db_idle seed_db).
  - repeat apply Forall_cons_2; [ .. | apply Forall_nil_2 ]; vm_compute; eauto.
  - repeat apply Forall_cons_2; [ .. | apply Forall_nil_2 ]; vm_compute; eauto.
  - repeat apply Forall_cons_2; [ .. | apply Forall_nil_2 ]; vm_compute; eauto.
Defined.

(** X17: a seed sale that was deleted comes back at every start.  The script
    lets a seed sale in when no sale has its first key (1 to 4), and the
    AUTOINCREMENT gives the row a new key; so once the sale under such a key
    has been deleted, each start that runs the script through adds the seed
    row again, under a key above the counter, leaves the first key unused
    for the next start to do the same, and takes nothing from the stock of
    the book. *)
Theorem initialize_db_reseeds n row db db' :
  (n, row) ∈ seed_sales →
  spent n db →
  initialize_db db = (None, db') →
  (∃ sid, sale_seq db < sid ∧ sale db !! sid = None ∧ sale db' !! sid = Some row)
  ∧ spent n db'
  ∧ (∀ k b, book db !! k = Some b → book db' !! k = Some b).
Proof.
  intros Hin Hsp Hrun.
  pose proof (executescript_grows _ db seed_script_grows) as Hgrows.
  fold (initialize_db db) in Hgrows. rewrite Hrun in Hgrows.
  cbn in Hgrows. split_and!; [ | by eapply grows_spent | apply Hgrows ].
  apply list_elem_of_split in Hin as (l1 & l2 & Hl).
  pose proof seed_script_grows as Hall.
  unfold initialize_db in Hrun. rewrite seed_script_sales, Hl in Hrun, Hall.
  rewrite fmap_app, fmap_cons, app_assoc in Hrun, Hall.
  apply executescript_split in Hrun as (d & d' & Hpre & Hstmt & Hpost).
  apply Forall_app in Hall as [Hpre_all Hall]. apply Forall_cons in Hall as [_ Hpost_all].
  pose proof (executescript_grows _ db Hpre_all) as Hd. rewrite Hpre in Hd. cbn in Hd.
  pose proof (executescript_grows _ d' Hpost_all) as Hd'. rewrite Hpost in Hd'. cbn in Hd'.
  destruct (grows_spent _ _ _ Hd Hsp) as [Hle Hfree].
  unfold insert_sale_unless, insert_sale in Hstmt. rewrite Hfree in Hstmt.
  destruct (Py.fits_int64 (next_sid d)); [ | done ]. injection Hstmt as <-.
  exists (next_sid d). destruct Hd as (_ & _ & Hkept & _ & Hq).
  split_and!.
  - unfold next_sid. lia.
  - destruct (sale db !! next_sid d) as [s|] eqn:Hs; [ | done ].
    apply Hkept in Hs. by rewrite next_sid_fresh in Hs.
  - destruct Hd' as (_ & _ & Hkept' & _). apply Hkept'. cbn.
    by rewrite lookup_insert_eq.
Qed.

Lemma initialize_db_reseeds_witness :
  let db := removed 4 seed_db in
  ∃ db', initialize_db db = (None, db')
         ∧ (∃ sid, sale_seq db < sid ∧ sale db !! sid = None
                   ∧ sale db' !! sid = Some (mkSale "2024-01-18" "M003" "B001" 1 0 600))
         ∧ spent 4 db'
         ∧ (∀ k b, book db !! k = Some b → book db' !! k = Some b).
Proof.
  intros db. subst db. eexists. split; [ vm_compute; reflexivity | ].
  apply (initialize_db_reseeds 4 (mkSale "2024-01-18" "M003" "B001" 1 0 600)
                               (removed 4 seed_db)).
  - unfold seed_sales. repeat first [ apply list_elem_of_here | apply list_elem_of_further ].
  - split; [ vm_compute; discriminate | vm_compute; reflexivity ].
  - vm_compute. reflexivity.
Defined.

(** ** The lines a create reads *)

(** X18: a create stops asking at the first answer it refuses.  It reads at
    most five lines and gives none back.  After a date that has not ten
    characters and two hyphens it has read that line only, and after a
    quantity that is no integer above 0 it has read four; the lines typed
    after these are left for the menu to read as choices. *)
Theorem add_sale_reads w :
  let lines := stdin w in
  let rest := stdin (add_sale w).2 in
  (∃ k, (k ≤ 5)%nat ∧ rest = drop k lines)
  ∧ (∀ sdate l, lines = sdate :: l →
       ¬ (Py.len sdate = 10 ∧ Py.count sdate "-" = 2) → rest = l)
  ∧ (∀ sdate mid bid q l, lines = sdate :: mid :: bid :: q :: l →
       Py.len sdate = 10 → Py.count sdate "-" = 2 →
       (∀ n, Py.int q = Some n → n ≤ 0) → rest = l).
Proof.
  destruct w as [lines out c fs]. cbn [stdin]. cbn zeta. split_and!.
  - start add_sale add_sale_body. run.
    all: intros [= <- <-]; cbn; subst.
    all: first [ exists 0%nat; split; [ lia | reflexivity ]
               | exists 1%nat; split; [ lia | reflexivity ]
               | exists 2%nat; split; [ lia | reflexivity ]
               | exists 3%nat; split; [ lia | reflexivity ]
               | exists 4%nat; split; [ lia | reflexivity ]
               | exists 5%nat; split; [ lia | reflexivity ] ].
  - intros sdate l -> Hdate%date_check_bad.
    start add_sale add_sale_body. run. by intros [= <- <-].
  - intros sdate mid bid q l -> Hlen Hcount Hq.
    pose proof (date_check_ok _ Hlen Hcount).
    destruct (Py.int q) as [n|] eqn:Hint; [ specialize (Hq n eq_refl) | clear Hq ].
    all: start add_sale add_sale_body; run.
    all: by intros [= <- <-].
Qed.

Lemma add_sale_reads_witness :
  stdin (add_sale (session ["20240101"; "5"])).2 = ["5"]
  ∧ stdin (add_sale (session ["2024-01-01"; "M001"; "B001"; "0"; "5"])).2 = ["5"].
Proof.
  split.
  - destruct (add_sale_reads (session ["20240101"; "5"])) as (_ & Hdate & _).
    apply (Hdate "20240101" ["5"]); [ reflexivity | ].
    vm_compute. intros [Hlen _]. discriminate Hlen.
  - destruct (add_sale_reads (session ["2024-01-01"; "M001"; "B001"; "0"; "5"]))
      as (_ & _ & Hqty).
    apply (Hqty "2024-01-01" "M001" "B001" "0" ["5"]); [ reflexivity .. | ].
    intros n Hn. vm_compute in Hn. injection Hn as <-. lia.
Defined.

(** ** The number typed and the key selected *)

Lemma sorted_lookup_ge l lo i x :
  StronglySorted Z.lt l → Forall (λ y, lo ≤ y) l → l !! i = Some x →
  lo + Z.of_nat i ≤ x.
Proof.
  intros Hs. revert lo i. induction Hs as [|y l Hs IH Hall]; intros lo i Hlo Hx.
  - by rewrite lookup_nil in Hx.
  - apply Forall_cons in Hlo as [Hy Hlo]. destruct i as [|i]; cbn in Hx.
    + injection Hx as <-. lia.
    + assert (Hl : Forall (λ z, y + 1 ≤ z) l).
      { eapply Forall_impl; [ exact Hall | ]. cbn. intros; lia. }
      specialize (IH (y + 1) i Hl Hx). lia.
Qed.

Lemma sorted_lookup_gap l lo i x k :
  StronglySorted Z.lt l → Forall (λ y, lo ≤ y) l → l !! i = Some x →
  k ∉ l → lo ≤ k < x →
  lo + Z.of_nat i + 1 ≤ x.
Proof.
  intros Hs. revert lo i. induction Hs as [|y l Hs IH Hall]; intros lo i Hlo Hx Hk Hin.
  - by rewrite lookup_nil in Hx.
  - apply Forall_cons in Hlo as [Hy Hlo]. apply not_elem_of_cons in Hk as [Hne Hk].
    assert (Hl : Forall (λ z, y + 1 ≤ z) l).
    { eapply Forall_impl; [ exact Hall | ]. cbn. intros; lia. }
    destruct i as [|i]; cbn in Hx.
    + injection Hx as <-. lia.
    + destruct (decide (k < y)).
      * pose proof (sorted_lookup_ge _ _ _ _ Hs Hl Hx). lia.
      * specialize (IH (y + 1) i Hl Hx Hk). lia.
Qed.

Lemma select_sales_list_keys db :
  keys_bounded db → Forall (λ sid, 1 ≤ sid) (sids (select_sales_list db)).
Proof.
  intros Hk. apply Forall_forall.
  intros sid ([[sid' name] date] & -> & Hel)%list_elem_of_fmap.
  apply elem_of_select_sales_list in Hel as (row & _ & Hrow & _). cbn.
  exact (proj1 (Hk _ _ Hrow)).
Qed.

(** X19: the number typed is a place in the list, not a key.  Update and
    delete show the key of each sale and select by position.  Where the keys
    are 1 or more, the number that selects a sale is at most the key of that
    sale, and it is less as soon as a smaller key is missing from the list,
    as after a delete. *)
Theorem choice_at_most_key db n sid name date :
  keys_bounded db →
  1 ≤ n →
  select_sales_list db !! Z.to_nat (n - 1) = Some (sid, name, date) →
  n ≤ sid
  ∧ (∀ k, 1 ≤ k < sid → k ∉ sids (select_sales_list db) → n < sid).
Proof.
  intros Hk Hn Hsel.
  pose proof (select_sales_list_sorted db) as Hs.
  pose proof (select_sales_list_keys _ Hk) as Hlo.
  assert (Hx : sids (select_sales_list db) !! Z.to_nat (n - 1) = Some sid).
  { unfold sids. by rewrite list_lookup_fmap, Hsel. }
  split.
  - pose proof (sorted_lookup_ge _ _ _ _ Hs Hlo Hx). lia.
  - intros k Hrange Hmissing.
    pose proof (sorted_lookup_gap _ _ _ _ k Hs Hlo Hx Hmissing). lia.
Qed.

Lemma choice_at_most_key_witness :
  let db := removed 2 seed_db in
  select_sales_list db !! Z.to_nat (3 - 1) = Some (4, "Cathy", "2024-01-18")
  ∧ 3 ≤ 4
  ∧ (∀ k, 1 ≤ k < 4 → k ∉ sids (select_sales_list db) → 3 < 4).
Proof.
  intros db. subst db.
  split; [ vm_compute; reflexivity | ].
  apply (choice_at_most_key (removed 2 seed_db) 3 4 "Cathy" "2024-01-18").
  - apply write_keys_bounded with seed_db; [ apply seed_db_consistent | ].
    apply (write_removed seed_db 2 (mkSale "2024-01-16" "M002" "B002" 1 50 750)
                         (mkMember "Bob" "0923-456789" (Some "bob@example.com")));
      vm_compute; reflexivity.
  - lia.
  - vm_compute. reflexivity.
Defined.
